(** * EasyTra: the location-aware conversational session manager

    A shallow embedding of the logic of [App.tsx], [services/geminiService.ts],
    [components/ChatMessage.tsx], [components/InputArea.tsx] and [types.ts].

    Modelling choices.
    - A JavaScript [number] holding a coordinate is a real number ([R]); a
      computed distance is a real number or [NaN].  Rounding of IEEE doubles
      is outside the model of the distance; what is proved of the decision
      of the jitter filter is proved for every distance function, the one
      the doubles compute included.  [Math.sin], [Math.cos] and [Math.PI] are
      those of the Reals library, [Math.sqrt] is [NaN] below 0, [Math.atan2]
      is defined from [atan] below.
    - [Date.now()] and [new Date()] are integers (milliseconds) supplied by
      the environment; [uuidv4()] is a string supplied by the environment.
    - A string is a [string] of bytes.
    - An [async] function is split at its [await]: the part that runs inside
      the event handler, and the part that runs when the promise settles.
    - Events are handled one at a time and the component is rendered again
      between two events: a handler reads the state as the latest event left
      it. *)

From Stdlib Require Import Reals Lra Lia ZArith List String Ascii Bool.
Import ListNotations.

Local Open Scope R_scope.

(** ** Geometry helpers of [App.tsx] *)

Module Geo.

(** A computed number: a real number, or [NaN]. *)
Inductive JsNumber := Num (r : R) | NaN.

(** [Math.atan2(y, x)] on real arguments. *)
Definition atan2 (y x : R) : R :=
  if Rlt_dec 0 x then atan (y / x)
  else if Rlt_dec x 0 then
    (if Rle_dec 0 y then atan (y / x) + PI else atan (y / x) - PI)
  else
    (if Rlt_dec 0 y then PI / 2
     else if Rlt_dec y 0 then - (PI / 2) else 0).

(** [Math.sqrt]: [NaN] for a negative argument. *)
Definition jsSqrt (x : R) : JsNumber :=
  if Rlt_dec x 0 then NaN else Num (sqrt x).

(** [Math.atan2] and the product by a real number: [NaN] as soon as an
    argument is [NaN]. *)
Definition jsAtan2 (y x : JsNumber) : JsNumber :=
  match y, x with
  | Num y', Num x' => Num (atan2 y' x')
  | _, _ => NaN
  end.

Definition jsTimes (k : R) (x : JsNumber) : JsNumber :=
  match x with Num r => Num (k * r) | NaN => NaN end.

Definition jsTimesBy (x : JsNumber) (k : R) : JsNumber :=
  match x with Num r => Num (r * k) | NaN => NaN end.

(** [x > y] for a computed [x]: false when [x] is [NaN]. *)
Definition jsGt (x : JsNumber) (y : R) : bool :=
  match x with
  | Num r => if Rlt_dec y r then true else false
  | NaN => false
  end.

Definition deg2rad (deg : R) : R := deg * (PI / 180).

(** [getDistanceFromLatLonInMeters], line by line. *)
Definition getDistanceFromLatLonInMeters (lat1 lon1 lat2 lon2 : R)
    : JsNumber :=
  let R_ := 6371 in
  let dLat := deg2rad (lat2 - lat1) in
  let dLon := deg2rad (lon2 - lon1) in
  let a :=
    sin (dLat / 2) * sin (dLat / 2) +
    cos (deg2rad lat1) * cos (deg2rad lat1) *
    sin (dLon / 2) * sin (dLon / 2) in
  let c := jsTimes 2 (jsAtan2 (jsSqrt a) (jsSqrt (1 - a))) in
  let d := jsTimes R_ c in
  jsTimesBy d 1000.

(** The haversine formula as the specification words it: the great-circle
    distance of two points on a sphere of radius 6371 km, in meters.  The
    cosine factor is the product of the cosines of BOTH latitudes. *)
Definition haversineMeters (lat1 lon1 lat2 lon2 : R) : R :=
  let dLat := deg2rad (lat2 - lat1) in
  let dLon := deg2rad (lon2 - lon1) in
  let a :=
    sin (dLat / 2) * sin (dLat / 2) +
    cos (deg2rad lat1) * cos (deg2rad lat2) *
    sin (dLon / 2) * sin (dLon / 2) in
  6371 * (2 * atan2 (sqrt a) (sqrt (1 - a))) * 1000.

End Geo.

(** ** The types of [types.ts] *)

Module Types.

Inductive Role := user | model.

Inductive RoutePreference :=
  FASTEST | LEAST_CROWDED | LOW_WALKING | FEWEST_TRANSFERS.

Record UserPreferences := mkPrefs {
  routePreference : RoutePreference;
  accessibilityRequired : bool;
  useCurrentLocation : bool
}.

(** The [{ uri, title }] object under [web] or [maps]. *)
Record Source := mkSource { uri : string; title : string }.

Record GroundingChunk := mkChunk {
  web : option Source;
  maps : option Source
}.

(** [isError?] and [groundingChunks?] are optional fields: [None] is
    [undefined]. *)
Record ChatMessage := mkMsg {
  id : string;
  role : Role;
  text : string;
  timestamp : Z;
  isError : option bool;
  groundingChunks : option (list GroundingChunk)
}.

(** [{ lat, lng }], the type of [userLocation]. *)
Record LatLng := mkLatLng { lat : R; lng : R }.

(** Truthiness of an optional boolean: [undefined] and [false] are falsy. *)
Definition truthy (b : option bool) : bool :=
  match b with Some true => true | _ => false end.

Definition isEmpty (s : string) : bool :=
  match s with EmptyString => true | String _ _ => false end.

End Types.

(** ** [services/geminiService.ts] *)

Module Service.
Import Types.

Local Open Scope string_scope.

(** What the platform does and the source does not define: the conversion
    of a number to a string inside a template literal. *)
Class Platform := { numberToString : R -> string }.

(** The double quote and the line feed, as one-character strings. *)
Definition dq : string := String (ascii_of_nat 34) EmptyString.
Definition nl : string := String (ascii_of_nat 10) EmptyString.

Definition MODEL_NAME : string := "gemini-2.5-flash".

Definition routePreferenceToString (p : RoutePreference) : string :=
  match p with
  | FASTEST => "FASTEST"
  | LEAST_CROWDED => "LEAST_CROWDED"
  | LOW_WALKING => "LOW_WALKING"
  | FEWEST_TRANSFERS => "FEWEST_TRANSFERS"
  end.

(** The template of [getSystemInstruction] up to the preferences block. *)
Definition instructionIntro : string :=
  "
    You are "
  ++ dq
  ++ "EasyTra,"
  ++ dq
  ++ " a super friendly and intelligent AI Trip Assistant. 
    Your mission is to provide accurate, real-time, and personalized mobility advice with a warm, helpful attitude.
    
    USER PROFILE & PREFERENCES:
    ".

(** Between the preferences block and the location sentence. *)
Definition instructionAfterPreferences : string :=
  "

    ".

(** From the location sentence to the second occurrence of the optimization goal. *)
Definition instructionRules : string :=
  "

    CORE CAPABILITIES & RULES:
    1. **Real-Time Data (CRITICAL):** You have access to Google Search and Google Maps. You MUST use them to check for real-time service alerts, delays, weather conditions, current events, and TRAFFIC CONGESTION that impact transit. Do not guess.
    2. **Traffic Reporting:** If you find evidence of heavy traffic, road closures, or congestion, you MUST explicitly mention "
  ++ dq
  ++ "High Traffic"
  ++ dq
  ++ " or "
  ++ dq
  ++ "Heavy Congestion"
  ++ dq
  ++ " in your text response.
    3. **Train & IRCTC Integration:** When the user asks for a destination involving intercity travel (e.g., "
  ++ dq
  ++ "Go to Mumbai"
  ++ dq
  ++ ", "
  ++ dq
  ++ "Travel to Delhi"
  ++ dq
  ++ "), you MUST use Google Search to find **IRCTC train schedules** and availability.
       - You MUST list the top available trains.
       - For each train, provide: **Train Name/Number**, **Est. Departure**, **Est. Arrival**, **Total Duration**, and **Approx. Fare/Price**.
    4. **Bus & Fare Breakdown:** Use Google Search to find current bus ticket prices on platforms like **RedBus** or similar services. 
       - **You MUST list fares SEPARATELY** for: **Bus**, **Train**, and **Metro** (where available). Do not lump them together.
    5. **Mode Comparison:** For intercity trips, provide a **"
  ++ dq
  ++ "🚆 Train vs. 🚌 Bus Comparison"
  ++ dq
  ++ "** section. Compare them based on:
       - **Comfort** (e.g., AC Sleeper bus vs. Train berth).
       - **Availability** (Frequency and booking ease).
       - **Price** (Cost effectiveness).
       - **User Experience** (Online sentiment/ratings).
    6. **Source Fusion:** Combine schedule data found via Search with external factors (weather, traffic).
    7. **Crowd Forecasting:** If real-time crowd data is not found, use historical reasoning (e.g., "
  ++ dq
  ++ "5 PM on a Friday implies high congestion"
  ++ dq
  ++ ") and state clearly that it is a prediction.
    8. **Optimization:** tailored to the user's optimization goal (".

(** The rest of the template. *)
Definition instructionOutputFormat : string :=
  ").
    9. **Location Handling:** 
       - IF the user does NOT specify a starting point, assume they are starting from their current location (provided above). 
       - IF the user specifies a starting point (e.g., "
  ++ dq
  ++ "from Central Station"
  ++ dq
  ++ "), use that instead.
    10. **Smart Traffic Management (Crucial for Road Trips):**
        - IF you detect **Heavy Traffic/Congestion**:
          a) You MUST search for and provide an **Alternative Route** (even if it's slightly longer in distance, it might be faster).
          b) You MUST suggest a **Better Departure Time** (e.g., "
  ++ dq
  ++ "Departing in 45 mins will save you ~15 mins"
  ++ dq
  ++ " or "
  ++ dq
  ++ "Wait until 7 PM for traffic to clear"
  ++ dq
  ++ ").
    11. **Walking Directions:** When suggesting a public transit route, you MUST include a specific section for walking directions from the start point to the nearest station/stop.
        - If 'Accessibility Requirements' are active, you MUST explicitly confirm the station is wheelchair accessible (elevators/ramps) and the walking path is step-free.
    
    OUTPUT FORMAT:
    - **TRIP STATS HEADER:** Start your main response (after a brief greeting if appropriate) with a dedicated separate line containing these details:
      **🌤️ Weather: [Condition/Temp] | ⏱️ Duration: [Total Time] | 📏 Distance: [Value] | 💰 Est. Fare: [Range Min-Max] | 🛣️ Tolls: [Count or N/A]**
    - **Detailed Fares:** Include a distinct section listing: "
  ++ dq
  ++ "🚌 Bus: ~₹X | 🚆 Train: ~₹Y | 🚇 Metro: ~₹Z"
  ++ dq
  ++ ".
    - **Train Details (If applicable):** If trains are involved, present them in a clear bulleted list or markdown table including prices.
    - **comparison (If applicable):** The Bus vs. Train analysis.
    - **🚶 To Station:** Provide brief walking directions to the first stop.
    - **💡 Smart Tips (If Traffic/Delay):** If heavy traffic is found, include a section with:
      - **🔀 Alt Route:** [Brief description of alternate path]
      - **⏳ Best Time to Leave:** [Suggestion for when to start trip]
    - **Concise:** Keep responses under 300 words unless a complex itinerary is needed.
    - **Structure:** Use clear headings, bullet points, and bold text for times/route numbers.
    - **Transparency:** If data is missing (e.g., specific vehicle location), state: "
  ++ dq
  ++ "Real-time data temporarily unavailable; using schedule/historical averages."
  ++ dq
  ++ "
    - **Call to Action:** ALWAYS end with a single, clear, friendly question (e.g., "
  ++ dq
  ++ "Shall I save this route for you?"
  ++ dq
  ++ " or "
  ++ dq
  ++ "Want walking directions to the stop?"
  ++ dq
  ++ ").

    TONE:
    Friendly, enthusiastic, warm, and helpful. Avoid being overly stiff or formal. Use natural language and occasional emojis (like 🚌, 🚂, 🚦, 👋) to sound approachable, but keep navigation details clear and precise.
  ".

Definition preferencesText (prefs : UserPreferences) : string :=
  nl ++ "    - Primary Optimization Goal: "
  ++ routePreferenceToString (routePreference prefs)
  ++ nl ++ "    - Accessibility Requirements: "
  ++ (if accessibilityRequired prefs
      then "Must be wheelchair accessible/step-free." else "None.")
  ++ nl ++ "  ".

Definition locationContext `{Platform} (userLocation : option LatLng) : string :=
  match userLocation with
  | Some l =>
      "USER LOCATION: The user is currently located at Lat: "
      ++ numberToString (lat l) ++ ", Lng: " ++ numberToString (lng l) ++ "."
  | None => "USER LOCATION: Unknown."
  end.

Definition getSystemInstruction `{Platform}
    (prefs : UserPreferences) (userLocation : option LatLng) : string :=
  instructionIntro ++ preferencesText prefs
  ++ instructionAfterPreferences ++ locationContext userLocation
  ++ instructionRules ++ routePreferenceToString (routePreference prefs)
  ++ instructionOutputFormat.

Inductive Tool := googleSearch | googleMaps.

(** One turn of the history handed to [ai.chats.create]:
    [{ role, parts: [{ text }] }]. *)
Record Content := mkContent { content_role : Role; content_text : string }.

(** Everything one call to the remote service is given: the arguments of
    [ai.chats.create] and of [chat.sendMessage]. *)
Record ChatRequest := mkRequest {
  req_model : string;
  systemInstruction : string;
  tools : list Tool;
  toolConfig : option LatLng;
  history : list Content;
  message : string
}.

(** What the remote service does with a request: it answers with a text and
    optional grounding chunks, or the call throws. *)
Inductive ApiResult :=
| ApiOk (text : string) (chunks : option (list GroundingChunk))
| ApiThrow.

(** A settled promise. *)
Inductive Settled (A : Type) :=
| Fulfilled (value : A)
| Rejected (errorMessage : string).
Arguments Fulfilled {A} value.
Arguments Rejected {A} errorMessage.

Record Response := mkResponse {
  response_text : string;
  response_groundingChunks : option (list GroundingChunk)
}.

Definition validHistory (history : list ChatMessage) : list ChatMessage :=
  filter (fun m => negb (truthy (isError m))) history.

(** [sendMessageToGemini] up to its [await]: the request it builds. *)
Definition sendMessageToGemini_request `{Platform}
    (history : list ChatMessage) (newMessage : string)
    (preferences : UserPreferences) (userLocation : option LatLng)
    : ChatRequest :=
  let validHistory := validHistory history in
  let toolConfig := userLocation in
  {| req_model := MODEL_NAME;
     systemInstruction := getSystemInstruction preferences userLocation;
     tools := [googleSearch; googleMaps];
     toolConfig := toolConfig;
     history := map (fun m => mkContent (role m) (text m)) validHistory;
     message := newMessage |}.

(** [sendMessageToGemini] after its [await]: the result is unpacked, and
    whatever was thrown is replaced by one fixed error. *)
Definition sendMessageToGemini_settle (r : ApiResult) : Settled Response :=
  match r with
  | ApiOk text chunks => Fulfilled (mkResponse text chunks)
  | ApiThrow =>
      Rejected "I'm having trouble connecting to the transit network right now. Please try again in a moment."
  end.

Definition sendMessageToGemini `{Platform} (api : ChatRequest -> ApiResult)
    (history : list ChatMessage) (newMessage : string)
    (preferences : UserPreferences) (userLocation : option LatLng)
    : Settled Response :=
  sendMessageToGemini_settle
    (api (sendMessageToGemini_request history newMessage preferences userLocation)).

(** A platform for closed examples: every number prints as [n]. *)
Definition examplePlatform : Platform := {| numberToString := fun _ => "n" |}.

End Service.

(** ** [components/ChatMessage.tsx]: the single-map policy *)

Module MessageView.
Import Types.

(** [c.maps?.uri] as a condition: the chunk has a [maps] object whose [uri]
    is a non-empty string. *)
Definition hasMapsUri (c : GroundingChunk) : bool :=
  match maps c with
  | Some s => negb (isEmpty (uri s))
  | None => false
  end.

Definition mapChunks (message : ChatMessage) : list GroundingChunk :=
  match groundingChunks message with
  | Some chunks => filter hasMapsUri chunks
  | None => []
  end.

(** [mapChunks.length > 0 ? mapChunks[0] : null] *)
Definition primaryMapChunk (message : ChatMessage) : option GroundingChunk :=
  match mapChunks message with
  | c :: _ => Some c
  | [] => None
  end.

(** The chunks the component shows: the primary map, when there is one. *)
Definition shownChunks (message : ChatMessage) : list GroundingChunk :=
  match primaryMapChunk message with
  | Some c => [c]
  | None => []
  end.

(** The reconciler as the specification words it: every web citation is
    kept, of the map citations only the first one, in source order.  A chunk
    is a map citation when it has a [maps] object. *)
Definition isMapKind (c : GroundingChunk) : bool :=
  match maps c with Some _ => true | None => false end.

Fixpoint reconcile_from (seenMap : bool) (raw : list GroundingChunk)
    : list GroundingChunk :=
  match raw with
  | [] => []
  | c :: rest =>
      if isMapKind c
      then (if seenMap then reconcile_from true rest
            else c :: reconcile_from true rest)
      else c :: reconcile_from seenMap rest
  end.

Definition reconcile_spec (raw : list GroundingChunk) : list GroundingChunk :=
  reconcile_from false raw.

(** The example of the specification: two web citations and two map
    citations, in the order web A, map M1, web B, map M2. *)
Definition webA : GroundingChunk :=
  mkChunk (Some (mkSource "https://a.example" "A")) None.
Definition mapM1 : GroundingChunk :=
  mkChunk None (Some (mkSource "https://maps.example/1" "M1")).
Definition webB : GroundingChunk :=
  mkChunk (Some (mkSource "https://b.example" "B")) None.
Definition mapM2 : GroundingChunk :=
  mkChunk None (Some (mkSource "https://maps.example/2" "M2")).
Definition exampleChunks : list GroundingChunk := [webA; mapM1; webB; mapM2].
Definition exampleMessage : ChatMessage :=
  mkMsg "answer" model "Take the train." 0 None (Some exampleChunks).

End MessageView.

(** ** [components/InputArea.tsx]: the text the user submits *)

Module InputArea.
Import Types.

(** The white space [String.prototype.trim] removes (the white space and
    the line terminators of the language), by the UTF-8 bytes of its code
    points.  One byte: tab, line feed, vertical tab, form feed, carriage
    return and space. *)
Definition isWhiteSpace (c : ascii) : bool :=
  let n := nat_of_ascii c in
  Nat.eqb n 9 || Nat.eqb n 10 || Nat.eqb n 11 || Nat.eqb n 12
  || Nat.eqb n 13 || Nat.eqb n 32.

(** Two bytes: the no-break space U+00A0 (C2 A0). *)
Definition isWhiteSpace2 (c1 c2 : ascii) : bool :=
  Nat.eqb (nat_of_ascii c1) 194 && Nat.eqb (nat_of_ascii c2) 160.

(** Three bytes: U+1680 (E1 9A 80); U+2000 to U+200A, U+2028, U+2029 and
    U+202F (E2 80 80 to 8A, A8, A9, AF); U+205F (E2 81 9F); U+3000
    (E3 80 80); U+FEFF (EF BB BF). *)
Definition isWhiteSpace3 (c1 c2 c3 : ascii) : bool :=
  let n1 := nat_of_ascii c1 in
  let n2 := nat_of_ascii c2 in
  let n3 := nat_of_ascii c3 in
  (Nat.eqb n1 225 && Nat.eqb n2 154 && Nat.eqb n3 128)
  || (Nat.eqb n1 226 && Nat.eqb n2 128
      && ((Nat.leb 128 n3 && Nat.leb n3 138)
          || Nat.eqb n3 168 || Nat.eqb n3 169 || Nat.eqb n3 175))
  || (Nat.eqb n1 226 && Nat.eqb n2 129 && Nat.eqb n3 159)
  || (Nat.eqb n1 227 && Nat.eqb n2 128 && Nat.eqb n3 128)
  || (Nat.eqb n1 239 && Nat.eqb n2 187 && Nat.eqb n3 191).

(** The bytes are white space from the first to the last. *)
Inductive WhiteSpaceOnly : list ascii -> Prop :=
| ws_nil : WhiteSpaceOnly []
| ws_one c rest :
    isWhiteSpace c = true -> WhiteSpaceOnly rest ->
    WhiteSpaceOnly (c :: rest)
| ws_two c1 c2 rest :
    isWhiteSpace2 c1 c2 = true -> WhiteSpaceOnly rest ->
    WhiteSpaceOnly (c1 :: c2 :: rest)
| ws_three c1 c2 c3 rest :
    isWhiteSpace3 c1 c2 c3 = true -> WhiteSpaceOnly rest ->
    WhiteSpaceOnly (c1 :: c2 :: c3 :: rest).

(** The white space at the start is dropped. *)
Fixpoint trimStartChars (l : list ascii) : list ascii :=
  match l with
  | [] => []
  | c1 :: rest1 =>
      if isWhiteSpace c1 then trimStartChars rest1
      else
        match rest1 with
        | [] => l
        | c2 :: rest2 =>
            if isWhiteSpace2 c1 c2 then trimStartChars rest2
            else
              match rest2 with
              | [] => l
              | c3 :: rest3 =>
                  if isWhiteSpace3 c1 c2 c3 then trimStartChars rest3 else l
              end
        end
  end.

Definition isBlankChars (l : list ascii) : bool :=
  match trimStartChars l with [] => true | _ :: _ => false end.

(** The longest end that is white space only is dropped. *)
Fixpoint trimEndChars (l : list ascii) : list ascii :=
  match l with
  | [] => []
  | c :: rest => if isBlankChars l then [] else c :: trimEndChars rest
  end.

Definition trimChars (l : list ascii) : list ascii :=
  trimEndChars (trimStartChars l).

Definition trim (s : string) : string :=
  string_of_list_ascii (trimChars (list_ascii_of_string s)).

(** [handleSubmit], with the callback [onSend] acting on a state [S]: the
    result is the state after the handler and the new content of the text
    area ([setInput('')] after a send). *)
Definition handleSubmit {S : Type} (onSend : string -> S -> S)
    (isLoading : bool) (input : string) (st : S) : S * string :=
  if isEmpty (trim input) || isLoading then (st, input)
  else (onSend input st, EmptyString).

End InputArea.

(** ** [App.tsx]: the session *)

Module App.
Import Types Service.

(** The value held by [lastLocationRef]. *)
Module Last.
Record t := mk { lat : R; lng : R; timestamp : Z }.
End Last.

(** The state of the [App] component.  [inFlight] is not a variable of the
    source: it lists the requests whose promise has not settled yet, so that
    calls to the remote service can be counted. *)
Record AppState := mkApp {
  messages : list ChatMessage;
  isLoading : bool;
  preferences : UserPreferences;
  userLocation : option LatLng;
  lastLocationRef : option Last.t;
  inFlight : list ChatRequest
}.

Definition setMessages (f : list ChatMessage -> list ChatMessage)
    (st : AppState) : AppState :=
  mkApp (f (messages st)) (isLoading st) (preferences st) (userLocation st)
        (lastLocationRef st) (inFlight st).

Definition setIsLoading (b : bool) (st : AppState) : AppState :=
  mkApp (messages st) b (preferences st) (userLocation st)
        (lastLocationRef st) (inFlight st).

Definition setPreferences (p : UserPreferences) (st : AppState) : AppState :=
  mkApp (messages st) (isLoading st) p (userLocation st)
        (lastLocationRef st) (inFlight st).

Definition setUserLocation (l : option LatLng) (st : AppState) : AppState :=
  mkApp (messages st) (isLoading st) (preferences st) l
        (lastLocationRef st) (inFlight st).

Definition setLastLocationRef (l : option Last.t) (st : AppState) : AppState :=
  mkApp (messages st) (isLoading st) (preferences st) (userLocation st)
        l (inFlight st).

Definition setInFlight (f : list ChatRequest -> list ChatRequest)
    (st : AppState) : AppState :=
  mkApp (messages st) (isLoading st) (preferences st) (userLocation st)
        (lastLocationRef st) (f (inFlight st)).

Definition welcomeText : string :=
  ("**Hi there! I'm EasyTra!** 👋" ++ nl ++ nl
   ++ "I'm here to help you breeze through the city! I'll check live traffic 🚦, service alerts, and crowd levels to find the absolute best route for you."
   ++ nl ++ nl ++ "Where are you headed today? 🌍")%string.

Definition welcome (now : Z) : ChatMessage :=
  mkMsg "welcome" model welcomeText now None None.

Definition defaultPreferences : UserPreferences :=
  mkPrefs FASTEST false true.

(** The state after the first render; [now] is the value of [new Date()]
    in the welcome message. *)
Definition initialState (now : Z) : AppState :=
  mkApp [welcome now] false defaultPreferences None None [].

(** *** The jitter filter: the [success] callback of [watchPosition] *)

(** The value of [shouldUpdate] when the callback reaches [if (shouldUpdate)]. *)
Definition shouldUpdate (last : option Last.t) (latitude longitude : R)
    (now : Z) : bool :=
  match last with
  | None => true
  | Some l =>
      let dist :=
        Geo.getDistanceFromLatLonInMeters (Last.lat l) (Last.lng l)
                                          latitude longitude in
      Geo.jsGt dist 20 || (now - Last.timestamp l >? 60000)%Z
  end.

Definition success (latitude longitude : R) (now : Z) (st : AppState)
    : AppState :=
  if shouldUpdate (lastLocationRef st) latitude longitude now
  then setUserLocation (Some (mkLatLng latitude longitude))
         (setLastLocationRef (Some (Last.mk latitude longitude now)) st)
  else st.

(** The same callback with the distance function as a parameter: [success]
    is [successWith Geo.getDistanceFromLatLonInMeters].  What holds of
    [successWith] for every [distance] holds of the callback whatever the
    arithmetic of the distance, rounding included. *)
Definition shouldUpdateWith (distance : R -> R -> R -> R -> Geo.JsNumber)
    (last : option Last.t) (latitude longitude : R) (now : Z) : bool :=
  match last with
  | None => true
  | Some l =>
      let dist := distance (Last.lat l) (Last.lng l) latitude longitude in
      Geo.jsGt dist 20 || (now - Last.timestamp l >? 60000)%Z
  end.

Definition successWith (distance : R -> R -> R -> R -> Geo.JsNumber)
    (latitude longitude : R) (now : Z) (st : AppState) : AppState :=
  if shouldUpdateWith distance (lastLocationRef st) latitude longitude now
  then setUserLocation (Some (mkLatLng latitude longitude))
         (setLastLocationRef (Some (Last.mk latitude longitude now)) st)
  else st.

(** The success callback of the fallback [getCurrentPosition]. *)
Definition fallbackSuccess (latitude longitude : R) (now : Z) (st : AppState)
    : AppState :=
  setUserLocation (Some (mkLatLng latitude longitude))
    (setLastLocationRef (Some (Last.mk latitude longitude now)) st).

(** *** [handleSendMessage] *)

Definition errorText : string :=
  "I'm having trouble accessing the network right now. Please try again.".

Definition userMsg (uid : string) (text : string) (now : Z) : ChatMessage :=
  mkMsg uid user text now None None.

Definition botMsg (uid : string) (response : Response) (now : Z)
    : ChatMessage :=
  mkMsg uid model (response_text response) now None
        (response_groundingChunks response).

Definition errorMsg (uid : string) (now : Z) : ChatMessage :=
  mkMsg uid model errorText now (Some true) None.

Section Session.
Context `{Platform}.

(** The request [handleSendMessage] issues in state [st]: the call
    [sendMessageToGemini(messages, text, preferences, userLocation)] reads
    the values of the render the handler belongs to. *)
Definition outboundRequest (st : AppState) (text : string) : ChatRequest :=
  sendMessageToGemini_request (messages st) text (preferences st)
                              (userLocation st).

(** [handleSendMessage] up to its [await]. *)
Definition handleSendMessage_begin (text uid : string) (now : Z)
    (st : AppState) : AppState :=
  let userMsg := userMsg uid text now in
  let st1 := setMessages (fun prev => prev ++ [userMsg]) st in
  let st2 := setIsLoading true st1 in
  setInFlight (fun calls => calls ++ [outboundRequest st text]) st2.

(** [handleSendMessage] from its [await] on: [try] body, [catch], [finally]. *)
Definition handleSendMessage_settled (outcome : Settled Response)
    (uid : string) (now : Z) (st : AppState) : AppState :=
  let st1 :=
    match outcome with
    | Fulfilled response =>
        setMessages (fun prev => prev ++ [botMsg uid response now]) st
    | Rejected _ =>
        setMessages (fun prev => prev ++ [errorMsg uid now]) st
    end in
  setIsLoading false st1.

(** The [k]-th pending call is no longer pending. *)
Definition retire (k : nat) (st : AppState) : AppState :=
  setInFlight (fun calls => firstn k calls ++ skipn (S k) calls) st.

(** One whole run of [handleSendMessage] with nothing else in between:
    [api] is the remote service, [uid1], [now1] serve the user message and
    [uid2], [now2] the answer. *)
Definition handleSendMessage (api : ChatRequest -> ApiResult)
    (text uid1 : string) (now1 : Z) (uid2 : string) (now2 : Z)
    (st : AppState) : AppState :=
  let st1 := handleSendMessage_begin text uid1 now1 st in
  let outcome :=
    sendMessageToGemini api (messages st) text (preferences st)
                        (userLocation st) in
  handleSendMessage_settled outcome uid2 now2
    (retire (List.length (inFlight st)) st1).

(** [<InputArea onSend={handleSendMessage} isLoading={isLoading} />]:
    a submit of the text area, up to the [await]. *)
Definition submit (input uid : string) (now : Z) (st : AppState)
    : AppState * string :=
  InputArea.handleSubmit (fun text => handleSendMessage_begin text uid now)
                         (isLoading st) input st.

(** *** The events of a session *)

Inductive Event :=
| EvSubmit (input uid : string) (now : Z)
| EvSettle (k : nat) (r : ApiResult) (uid : string) (now : Z)
| EvPosition (latitude longitude : R) (now : Z)
| EvFallbackPosition (latitude longitude : R) (now : Z)
| EvPreferences (p : UserPreferences).

Definition step (st : AppState) (e : Event) : AppState :=
  match e with
  | EvSubmit input uid now => fst (submit input uid now st)
  | EvSettle k r uid now =>
      match nth_error (inFlight st) k with
      | Some _ =>
          handleSendMessage_settled (sendMessageToGemini_settle r) uid now
                                    (retire k st)
      | None => st
      end
  | EvPosition latitude longitude now => success latitude longitude now st
  | EvFallbackPosition latitude longitude now =>
      fallbackSuccess latitude longitude now st
  | EvPreferences p => setPreferences p st
  end.

Definition run (st : AppState) (events : list Event) : AppState :=
  fold_left step events st.

(** The states a session can be in: [t0] is the time of the first render. *)
Inductive reachable (t0 : Z) : AppState -> Prop :=
| reach_init : reachable t0 (initialState t0)
| reach_step st e : reachable t0 st -> reachable t0 (step st e).

End Session.

(** The invariant of a session driven through the input area: no call is
    pending when the loading flag is off, exactly one when it is on. *)
Definition singleFlight (st : AppState) : Prop :=
  (isLoading st = false /\ inFlight st = [])
  \/ (isLoading st = true /\ exists r, inFlight st = [r]).

(** A blank input outside ASCII: a no-break space (U+00A0) and an
    ideographic space (U+3000), in UTF-8. *)
Definition noBreakAndIdeographicSpace : string :=
  String (ascii_of_nat 194) (String (ascii_of_nat 160)
    (String (ascii_of_nat 227) (String (ascii_of_nat 128)
      (String (ascii_of_nat 128) EmptyString)))).

(** Closed example states: the first render at time 0, the state after
    [handleSendMessage("a")] has reached its [await], and the state after a
    second call of [handleSendMessage] made before the first one settled. *)
Definition exampleLoading : AppState :=
  @handleSendMessage_begin examplePlatform "a" "u1" 1 (initialState 0).

Definition exampleTwoCalls : AppState :=
  @handleSendMessage_begin examplePlatform "b" "u2" 2 exampleLoading.

End App.

(** ** [components/SettingsPanel.tsx]: the two handlers *)

Module Settings.
Import Types.

(** The value [handleGoalChange] passes to [onUpdate]. *)
Definition handleGoalChange (preferences : UserPreferences)
    (goal : RoutePreference) : UserPreferences :=
  mkPrefs goal (accessibilityRequired preferences)
          (useCurrentLocation preferences).

(** The value [toggleAccessibility] passes to [onUpdate]. *)
Definition toggleAccessibility (preferences : UserPreferences)
    : UserPreferences :=
  mkPrefs (routePreference preferences)
          (negb (accessibilityRequired preferences))
          (useCurrentLocation preferences).

End Settings.

(** ** [components/InputArea.tsx]: the key handler and the send button *)

Module InputControls.
Import Types InputArea.

(** The [disabled] attribute of the send button. *)
Definition sendDisabled (input : string) (isLoading : bool) : bool :=
  isEmpty (trim input) || isLoading.

(** [handleKeyDown]: [key] is [e.key], [shiftKey] is [e.shiftKey]. *)
Definition handleKeyDown {S : Type} (onSend : string -> S -> S)
    (isLoading : bool) (key : string) (shiftKey : bool)
    (input : string) (st : S) : S * string :=
  if String.eqb key "Enter" && negb shiftKey
  then handleSubmit onSend isLoading input st
  else (st, input).

End InputControls.

(** ** [components/ChatMessage.tsx]: what a message shows *)

Module MessageRender.
Import Types MessageView.

Local Open Scope string_scope.

Definition isUser (message : ChatMessage) : bool :=
  match role message with user => true | model => false end.

(** The lower case of an ASCII letter; other bytes are left as they are. *)
Definition toLowerChar (c : ascii) : ascii :=
  let n := nat_of_ascii c in
  if Nat.leb 65 n && Nat.leb n 90 then ascii_of_nat (n + 32) else c.

(** [toLowerCase] on a string of UTF-8 bytes, as far as ASCII is concerned:
    the ASCII capitals are lowered, and so are the two letters outside ASCII
    whose lower case has an ASCII letter: the Kelvin sign U+212A (E2 84 AA)
    becomes [k], and the capital I with dot U+0130 (C4 B0) becomes [i]
    followed by the combining dot U+0307 (CC 87).  Every other letter
    outside ASCII has its lower case outside ASCII and is left as it is:
    the result has the ASCII letters of the lower-cased text at their
    places, which is what the search for the ASCII keywords of the traffic
    test reads. *)
Fixpoint toLowerCase (s : string) : string :=
  match s with
  | EmptyString => EmptyString
  | String c1 rest1 =>
      match rest1 with
      | EmptyString => String (toLowerChar c1) EmptyString
      | String c2 rest2 =>
          if Nat.eqb (nat_of_ascii c1) 196 && Nat.eqb (nat_of_ascii c2) 176
          then String "i" (String (ascii_of_nat 204)
                                  (String (ascii_of_nat 135)
                                          (toLowerCase rest2)))
          else
            match rest2 with
            | EmptyString => String (toLowerChar c1) (toLowerCase rest1)
            | String c3 rest3 =>
                if Nat.eqb (nat_of_ascii c1) 226
                   && Nat.eqb (nat_of_ascii c2) 132
                   && Nat.eqb (nat_of_ascii c3) 170
                then String "k" (toLowerCase rest3)
                else String (toLowerChar c1) (toLowerCase rest1)
            end
      end
  end.

(** [s] has an occurrence of [k]. *)
Fixpoint includes (k s : string) : bool :=
  prefix k s
  || match s with
     | EmptyString => false
     | String _ rest => includes k rest
     end.

(** The alternatives of the regular expression
    [(heavy traffic|congestion|high traffic|traffic jam|gridlock|delays? due to traffic)],
    the optional [s] written out. *)
Definition trafficKeywords : list string :=
  ["heavy traffic"; "congestion"; "high traffic"; "traffic jam"; "gridlock";
   "delay due to traffic"; "delays due to traffic"].

(** [!isUser && message.text.toLowerCase().match(...)], as a condition. *)
Definition hasHeavyTraffic (message : ChatMessage) : bool :=
  negb (isUser message)
  && existsb (fun k => includes k (toLowerCase (text message))) trafficKeywords.

(** The characters [encodeURIComponent] leaves as they are: letters, digits
    and [- _ . ! ~ * ' ( )]. *)
Definition isUnreserved (c : ascii) : bool :=
  let n := nat_of_ascii c in
  (Nat.leb 65 n && Nat.leb n 90) || (Nat.leb 97 n && Nat.leb n 122)
  || (Nat.leb 48 n && Nat.leb n 57)
  || Nat.eqb n 45 || Nat.eqb n 95 || Nat.eqb n 46 || Nat.eqb n 33
  || Nat.eqb n 126 || Nat.eqb n 42 || Nat.eqb n 39 || Nat.eqb n 40
  || Nat.eqb n 41.

Definition hexDigit (n : nat) : ascii :=
  ascii_of_nat (if Nat.ltb n 10 then 48 + n else 55 + n).

Definition encodeChar (c : ascii) : string :=
  if isUnreserved c then String c EmptyString
  else String "%" (String (hexDigit (nat_of_ascii c / 16))
                          (String (hexDigit (nat_of_ascii c mod 16))
                                  EmptyString)).

(** [encodeURIComponent] on a string of UTF-8 bytes: every byte that is not
    left as it is becomes a percent sign and two upper-case hex digits. *)
Fixpoint encodeURIComponent (s : string) : string :=
  match s with
  | EmptyString => EmptyString
  | String c rest => encodeChar c ++ encodeURIComponent rest
  end.

(** The value of a hex digit, and the reading back of what
    [encodeURIComponent] writes; used to show that no two strings are
    encoded alike. *)
Definition hexValue (c : ascii) : nat :=
  let n := nat_of_ascii c in
  if Nat.leb 48 n && Nat.leb n 57 then n - 48 else n - 55.

Fixpoint decodeBytes (s : string) : string :=
  match s with
  | EmptyString => EmptyString
  | String c rest =>
      if Ascii.eqb c "%" then
        match rest with
        | String h (String l rest') =>
            String (ascii_of_nat (hexValue h * 16 + hexValue l))
                   (decodeBytes rest')
        | _ => EmptyString
        end
      else String c (decodeBytes rest)
  end.

Definition embedUrlPrefix : string := "https://maps.google.com/maps?q=".
Definition embedUrlSuffix : string := "&t=&z=13&ie=UTF8&iwloc=&output=embed".

(** The map block of a message: nothing unless there is a primary map chunk
    with a [maps.uri]; otherwise the title ([maps.title || "Location"]), the
    embed URL and the link target. *)
Record MapEmbed := mkEmbed {
  embed_title : string;
  embedUrl : string;
  href : string
}.

Definition mapEmbed (message : ChatMessage) : option MapEmbed :=
  match primaryMapChunk message with
  | Some c =>
      match maps c with
      | Some s =>
          if isEmpty (uri s) then None
          else
            let title := if isEmpty (title s) then "Location" else title s in
            Some (mkEmbed title
                    (embedUrlPrefix ++ encodeURIComponent title
                     ++ embedUrlSuffix)
                    (uri s))
      | None => None
      end
  | None => None
  end.

(** The badge HEAVY TRAFFIC DETECTED sits inside the map block. *)
Definition showsTrafficBadge (message : ChatMessage) : bool :=
  match mapEmbed message with
  | Some _ => hasHeavyTraffic message
  | None => false
  end.

End MessageRender.

(** ** [App.tsx]: the header, the location error callback, the panel *)

Module AppUI.
Import Types Service App.

(** [s.replace(pattern, replacement)] with a one-character string pattern:
    the first occurrence is replaced. *)
Fixpoint replaceFirstChar (pattern replacement : ascii) (s : string)
    : string :=
  match s with
  | EmptyString => EmptyString
  | String c rest =>
      if Ascii.eqb c pattern then String replacement rest
      else String c (replaceFirstChar pattern replacement rest)
  end.

(** [preferences.routePreference.replace('_', ' ')], the goal shown in the
    header. *)
Definition goalLabel (preferences : UserPreferences) : string :=
  replaceFirstChar "_" " "
    (routePreferenceToString (routePreference preferences)).

(** [GeolocationPositionError.TIMEOUT] *)
Definition TIMEOUT : Z := 3.

(** The [error] callback of [watchPosition]: it changes no state; the result
    tells whether the fallback [getCurrentPosition] is requested. *)
Definition error (code : Z) (st : AppState) : bool :=
  match lastLocationRef st with
  | None => Z.eqb code TIMEOUT
  | Some _ => false
  end.

(** The code of the distance, with its local [a] given a name. *)
Definition radicand (lat1 lon1 lat2 lon2 : R) : R :=
  (sin (Geo.deg2rad (lat2 - lat1) / 2) * sin (Geo.deg2rad (lat2 - lat1) / 2) +
   cos (Geo.deg2rad lat1) * cos (Geo.deg2rad lat1) *
   sin (Geo.deg2rad (lon2 - lon1) / 2) * sin (Geo.deg2rad (lon2 - lon1) / 2))%R.

(** The user location and the reference of the jitter filter hold the same
    coordinates. *)
Definition locationsAgree (st : AppState) : Prop :=
  match lastLocationRef st, userLocation st with
  | None, None => True
  | Some l, Some u => Last.lat l = lat u /\ Last.lng l = lng u
  | _, _ => False
  end.

(** The three kinds of message the session produces. *)
Definition wellFormed (m : ChatMessage) : Prop :=
  (role m = user -> isError m = None /\ groundingChunks m = None)
  /\ (isError m = Some true ->
      role m = model /\ text m = errorText /\ groundingChunks m = None)
  /\ isError m <> Some false.

Definition otherRole (r : Role) : Role :=
  match r with user => model | model => user end.

Definition roleEqb (r1 r2 : Role) : bool :=
  match r1, r2 with
  | user, user | model, model => true
  | _, _ => false
  end.

(** The roles of [l] alternate, starting with [first]. *)
Fixpoint alternates (first : Role) (l : list ChatMessage) : bool :=
  match l with
  | [] => true
  | m :: rest => roleEqb (role m) first && alternates (otherRole first) rest
  end.

Section Session.
Context `{Platform}.

(** The invariant of a session: at rest no call is pending and the
    conversation ends with a model message; while loading the conversation
    ends with the user message of the one pending call, whose request was
    built from the messages before it. *)
Definition sessionInvariant (st : AppState) : Prop :=
  (isLoading st = false /\ inFlight st = []
   /\ alternates model (messages st) = true
   /\ Nat.odd (List.length (messages st)) = true)
  \/ (isLoading st = true
      /\ exists prior uid input now prefs loc,
          messages st = prior ++ [userMsg uid input now]
          /\ inFlight st = [sendMessageToGemini_request prior input prefs loc]
          /\ alternates model prior = true
          /\ Nat.odd (List.length prior) = true).

(** An event of the settings panel carries what one of its two handlers
    passes on; the other events are as they are. *)
Definition fromPanel (st : AppState) (e : Event) : Prop :=
  match e with
  | EvPreferences p =>
      (exists goal, p = Settings.handleGoalChange (preferences st) goal)
      \/ p = Settings.toggleAccessibility (preferences st)
  | _ => True
  end.

(** The states a session reaches when the preferences change through the
    settings panel only. *)
Inductive reachableUI (t0 : Z) : AppState -> Prop :=
| ui_init : reachableUI t0 (initialState t0)
| ui_step st e :
    reachableUI t0 st -> fromPanel st e -> reachableUI t0 (step st e).

End Session.

End AppUI.

(** ** Facts about [atan2] and the distance *)

Module GeoFacts.
Import Geo.

Lemma atan2_pos (y x : R) : 0 < x -> atan2 y x = atan (y / x).
Proof.
  intros Hx. unfold atan2. destruct (Rlt_dec 0 x); [reflexivity | contradiction].
Qed.

Lemma atan2_sin_cos (t : R) :
  - (PI / 2) < t < PI / 2 -> atan2 (sin t) (cos t) = t.
Proof.
  intros Ht.
  assert (Hc : 0 < cos t) by (apply cos_gt_0; lra).
  rewrite atan2_pos by exact Hc.
  change (sin t / cos t) with (tan t).
  apply atan_tan; exact Ht.
Qed.

Lemma sqrt_sin_sq (t : R) : 0 <= sin t -> sqrt (sin t * sin t) = sin t.
Proof. intros H. apply sqrt_square; exact H. Qed.

Lemma one_minus_sin_sq (t : R) : 1 - sin t * sin t = cos t * cos t.
Proof.
  pose proof (sin2_cos2 t) as H. unfold Rsqr in H. lra.
Qed.

(** The value of the code in terms of its local [a]: a number when [a] is
    between 0 and 1, [NaN] when [a] exceeds 1. *)
Lemma distance_num (lat1 lon1 lat2 lon2 a : R) :
  sin (deg2rad (lat2 - lat1) / 2) * sin (deg2rad (lat2 - lat1) / 2) +
  cos (deg2rad lat1) * cos (deg2rad lat1) *
  sin (deg2rad (lon2 - lon1) / 2) * sin (deg2rad (lon2 - lon1) / 2) = a ->
  0 <= a <= 1 ->
  getDistanceFromLatLonInMeters lat1 lon1 lat2 lon2
  = Num (6371 * (2 * atan2 (sqrt a) (sqrt (1 - a))) * 1000).
Proof.
  intros Ha [Hlo Hhi]. unfold getDistanceFromLatLonInMeters. cbv zeta.
  rewrite Ha. unfold jsSqrt.
  destruct (Rlt_dec a 0) as [Hneg | _]; [lra |].
  destruct (Rlt_dec (1 - a) 0) as [Hneg | _]; [lra |].
  reflexivity.
Qed.

Lemma distance_nan (lat1 lon1 lat2 lon2 a : R) :
  sin (deg2rad (lat2 - lat1) / 2) * sin (deg2rad (lat2 - lat1) / 2) +
  cos (deg2rad lat1) * cos (deg2rad lat1) *
  sin (deg2rad (lon2 - lon1) / 2) * sin (deg2rad (lon2 - lon1) / 2) = a ->
  1 < a ->
  getDistanceFromLatLonInMeters lat1 lon1 lat2 lon2 = NaN.
Proof.
  intros Ha Hhi. unfold getDistanceFromLatLonInMeters. cbv zeta.
  rewrite Ha. unfold jsSqrt.
  destruct (Rlt_dec a 0) as [_ | _];
    (destruct (Rlt_dec (1 - a) 0) as [_ | Hge]; [reflexivity | lra]).
Qed.

Lemma sin_sq_bounds (t : R) : 0 <= sin t * sin t <= 1.
Proof.
  pose proof (sin2_cos2 t) as H. unfold Rsqr in H.
  pose proof (Rle_0_sqr (sin t)) as Hs. pose proof (Rle_0_sqr (cos t)) as Hc.
  unfold Rsqr in Hs, Hc. lra.
Qed.

(** Along a meridian, northwards, by less than half a turn: the code returns
    the arc length. *)
Lemma distance_along_meridian (lat1 lat2 lon : R) :
  0 <= lat2 - lat1 < 180 ->
  getDistanceFromLatLonInMeters lat1 lon lat2 lon
  = Num (6371000 * deg2rad (lat2 - lat1)).
Proof.
  intros [Hlo Hhi].
  set (t := deg2rad (lat2 - lat1) / 2).
  assert (HPI : 0 < PI) by apply PI_RGT_0.
  assert (Ht : 0 <= t < PI / 2).
  { unfold t, deg2rad. split.
    - apply Rmult_le_pos; [apply Rmult_le_pos; lra | lra].
    - assert (Hm : (lat2 - lat1) * (PI / 180) < 180 * (PI / 180)).
      { apply Rmult_lt_compat_r; lra. }
      lra. }
  rewrite (distance_num lat1 lon lat2 lon (sin t * sin t)).
  - f_equal.
    assert (Hs : 0 <= sin t) by (apply sin_ge_0; lra).
    assert (Hc : 0 < cos t) by (apply cos_gt_0; lra).
    rewrite sqrt_sin_sq by exact Hs.
    rewrite one_minus_sin_sq.
    rewrite sqrt_square by lra.
    rewrite atan2_sin_cos by lra.
    unfold t. lra.
  - fold t.
    replace (deg2rad (lon - lon)) with 0 by (unfold deg2rad; lra).
    replace (0 / 2) with 0 by lra.
    rewrite sin_0. lra.
  - apply sin_sq_bounds.
Qed.

Lemma sin_PI4_sq : sin (PI / 4) * sin (PI / 4) = 1 / 2.
Proof.
  rewrite sin_PI4.
  assert (H2 : sqrt 2 * sqrt 2 = 2) by (apply sqrt_sqrt; lra).
  assert (Hpos : 0 < sqrt 2) by (apply sqrt_lt_R0; lra).
  field_simplify; [| lra].
  replace (sqrt 2 ^ 2) with (sqrt 2 * sqrt 2) by ring.
  rewrite H2. lra.
Qed.

Lemma sin_PI6_sq : sin (PI / 6) * sin (PI / 6) = 1 / 4.
Proof. rewrite sin_PI6. lra. Qed.

Lemma sqrt_three_quarters : sqrt (3 / 4) = sqrt 3 / 2.
Proof.
  assert (H3 : sqrt 3 * sqrt 3 = 3) by (apply sqrt_sqrt; lra).
  assert (Hpos : 0 <= sqrt 3) by apply sqrt_pos.
  replace (3 / 4) with ((sqrt 3 / 2) * (sqrt 3 / 2)) by (field_simplify; lra).
  apply sqrt_square. lra.
Qed.

Lemma sqrt_one_quarter : sqrt (1 / 4) = 1 / 2.
Proof.
  replace (1 / 4) with ((1 / 2) * (1 / 2)) by lra.
  apply sqrt_square. lra.
Qed.

Lemma atan_sqrt3 : atan (sqrt 3) = PI / 3.
Proof.
  rewrite <- tan_PI3. apply atan_tan.
  pose proof PI_RGT_0. lra.
Qed.

Lemma atan2_diag (x : R) : 0 < x -> atan2 x x = PI / 4.
Proof.
  intros Hx. rewrite atan2_pos by exact Hx.
  replace (x / x) with 1 by (field; lra).
  apply atan_1.
Qed.

Lemma radicand_value_equator_to_pole :
  sin (deg2rad (90 - 0) / 2) * sin (deg2rad (90 - 0) / 2) +
  cos (deg2rad 0) * cos (deg2rad 0) *
  sin (deg2rad (60 - 0) / 2) * sin (deg2rad (60 - 0) / 2) = 3 / 4.
Proof.
  unfold deg2rad.
  replace ((90 - 0) * (PI / 180) / 2) with (PI / 4) by lra.
  replace ((60 - 0) * (PI / 180) / 2) with (PI / 6) by lra.
  replace (0 * (PI / 180)) with 0 by lra.
  rewrite cos_0.
  pose proof sin_PI4_sq. pose proof sin_PI6_sq. nra.
Qed.

(** The value the code computes from the equator at longitude 0 to the
    north pole at longitude 60. *)
Lemma code_distance_equator_to_pole :
  getDistanceFromLatLonInMeters 0 0 90 60 = Num (6371000 * (2 * PI / 3)).
Proof.
  rewrite (distance_num 0 0 90 60 (3 / 4) radicand_value_equator_to_pole)
    by lra.
  f_equal.
  replace (1 - 3 / 4) with (1 / 4) by lra.
  rewrite sqrt_three_quarters, sqrt_one_quarter.
  rewrite atan2_pos by lra.
  replace (sqrt 3 / 2 / (1 / 2)) with (sqrt 3) by lra.
  rewrite atan_sqrt3. lra.
Qed.

(** The haversine distance of the same two points: a quarter of a great
    circle. *)
Lemma haversine_equator_to_pole :
  haversineMeters 0 0 90 60 = 6371000 * (PI / 2).
Proof.
  unfold haversineMeters, deg2rad. cbv zeta.
  replace ((90 - 0) * (PI / 180) / 2) with (PI / 4) by lra.
  replace ((60 - 0) * (PI / 180) / 2) with (PI / 6) by lra.
  replace (0 * (PI / 180)) with 0 by lra.
  replace (90 * (PI / 180)) with (PI / 2) by lra.
  rewrite cos_0, cos_PI2.
  replace (sin (PI / 4) * sin (PI / 4) + 1 * 0 * sin (PI / 6) * sin (PI / 6))
    with (1 / 2).
  2:{ pose proof sin_PI4_sq. lra. }
  replace (1 - 1 / 2) with (1 / 2) by lra.
  rewrite atan2_diag by (apply sqrt_lt_R0; lra).
  lra.
Qed.

(** A point is at distance 0 from itself. *)
Lemma distance_same_point (lat1 lon1 : R) :
  getDistanceFromLatLonInMeters lat1 lon1 lat1 lon1 = Num 0.
Proof.
  rewrite distance_along_meridian by lra.
  f_equal. unfold deg2rad. lra.
Qed.

(** C1.  The claim is that [getDistanceFromLatLonInMeters] is the haversine
    great-circle distance for every pair of points.  The code takes the
    cosine of the first latitude twice: from (0, 0) on the equator to
    (90, 60) at the north pole it computes a third of a great circle,
    2/3 * PI * 6371000 m, where the haversine distance is a quarter of one,
    1/2 * PI * 6371000 m. *)
Theorem distance_differs_from_haversine :
  getDistanceFromLatLonInMeters 0 0 90 60 = Num (6371000 * (2 * PI / 3))
  /\ haversineMeters 0 0 90 60 = 6371000 * (PI / 2)
  /\ getDistanceFromLatLonInMeters 0 0 90 60
     <> Num (haversineMeters 0 0 90 60).
Proof.
  split; [exact code_distance_equator_to_pole |].
  split; [exact haversine_equator_to_pole |].
  rewrite code_distance_equator_to_pole, haversine_equator_to_pole.
  intros Heq. injection Heq as Heq.
  pose proof PI_RGT_0. lra.
Qed.

End GeoFacts.

(** ** The jitter filter *)

Module FilterFacts.
Import Types App.

Lemma jsGt_true (x : Geo.JsNumber) (y : R) :
  Geo.jsGt x y = true <-> exists r, x = Geo.Num r /\ r > y.
Proof.
  unfold Geo.jsGt. destruct x as [r |].
  - destruct (Rlt_dec y r) as [Hlt | Hge]; split.
    + intros _. exists r. split; [reflexivity | exact Hlt].
    + reflexivity.
    + discriminate.
    + intros (r' & Hr & Hgt). injection Hr as Hr. subst r'. contradiction.
  - split; [discriminate | intros (r & Hr & _); discriminate Hr].
Qed.

Lemma jsGt_false (x : Geo.JsNumber) (y : R) :
  Geo.jsGt x y = false <-> forall r, x = Geo.Num r -> r <= y.
Proof.
  unfold Geo.jsGt. destruct x as [r |].
  - destruct (Rlt_dec y r) as [Hlt | Hge]; split.
    + discriminate.
    + intros Hall. specialize (Hall r eq_refl). lra.
    + intros _ r' Hr. injection Hr as Hr. subst r'. lra.
    + reflexivity.
  - split; [intros _ r Hr; discriminate Hr | reflexivity].
Qed.

Section AnyDistance.
Variable distance : R -> R -> R -> R -> Geo.JsNumber.

Lemma shouldUpdateWith_later (l : Last.t) (latitude longitude : R) (now : Z) :
  shouldUpdateWith distance (Some l) latitude longitude now = true <->
  (exists d, distance (Last.lat l) (Last.lng l) latitude longitude = Geo.Num d
             /\ d > 20)
  \/ (now - Last.timestamp l > 60000)%Z.
Proof.
  unfold shouldUpdateWith. cbv zeta.
  rewrite orb_true_iff, jsGt_true, Z.gtb_gt. reflexivity.
Qed.

Lemma shouldUpdateWith_rejects (l : Last.t) (latitude longitude : R)
    (now : Z) :
  shouldUpdateWith distance (Some l) latitude longitude now = false <->
  (forall d, distance (Last.lat l) (Last.lng l) latitude longitude = Geo.Num d
             -> d <= 20)
  /\ (now - Last.timestamp l <= 60000)%Z.
Proof.
  unfold shouldUpdateWith. cbv zeta.
  rewrite orb_false_iff, jsGt_false, Z.gtb_ltb, Z.ltb_ge. reflexivity.
Qed.

Lemma successWith_accepts (latitude longitude : R) (now : Z) (st : AppState) :
  shouldUpdateWith distance (lastLocationRef st) latitude longitude now = true ->
  successWith distance latitude longitude now st
  = mkApp (messages st) (isLoading st) (preferences st)
          (Some (mkLatLng latitude longitude))
          (Some (Last.mk latitude longitude now)) (inFlight st).
Proof. intros Hd. unfold successWith. rewrite Hd. reflexivity. Qed.

Lemma successWith_rejects (latitude longitude : R) (now : Z) (st : AppState) :
  shouldUpdateWith distance (lastLocationRef st) latitude longitude now = false ->
  successWith distance latitude longitude now st = st.
Proof. intros Hd. unfold successWith. rewrite Hd. reflexivity. Qed.

End AnyDistance.

Lemma shouldUpdate_with (last : option Last.t) (latitude longitude : R)
    (now : Z) :
  shouldUpdate last latitude longitude now
  = shouldUpdateWith Geo.getDistanceFromLatLonInMeters last latitude
                     longitude now.
Proof. reflexivity. Qed.

Lemma success_with (latitude longitude : R) (now : Z) (st : AppState) :
  success latitude longitude now st
  = successWith Geo.getDistanceFromLatLonInMeters latitude longitude now st.
Proof. reflexivity. Qed.

Lemma shouldUpdate_rejects (l : Last.t) (latitude longitude : R) (now : Z) :
  shouldUpdate (Some l) latitude longitude now = false <->
  (forall d,
      Geo.getDistanceFromLatLonInMeters (Last.lat l) (Last.lng l)
                                        latitude longitude = Geo.Num d ->
      d <= 20)
  /\ (now - Last.timestamp l <= 60000)%Z.
Proof. rewrite shouldUpdate_with. apply shouldUpdateWith_rejects. Qed.

(** C2. The decision of the jitter filter, for the distance however it is
    computed.  With no position accepted before, the callback takes the fix:
    the reference position and the user location become the fix.  Otherwise
    it takes the fix exactly when the computed distance to the last accepted
    position is a number greater than 20 or more than 60000 ms have passed,
    and leaves the state as it is in every other case (a distance that is
    not a number counts as not greater).  With less than 60000 ms elapsed a
    computed distance of exactly 20 is rejected and one of 20.01 is accepted;
    at a computed distance of 0 a fix that comes 60001 ms later is accepted.
    [success] is the callback for the distance of the code. *)
Theorem jitter_filter_decision :
  (forall distance : R -> R -> R -> R -> Geo.JsNumber,
      (forall latitude longitude now st,
          lastLocationRef st = None ->
          successWith distance latitude longitude now st
          = mkApp (messages st) (isLoading st) (preferences st)
                  (Some (mkLatLng latitude longitude))
                  (Some (Last.mk latitude longitude now)) (inFlight st))
      /\ (forall l latitude longitude now st,
          lastLocationRef st = Some l ->
          ((exists d,
               distance (Last.lat l) (Last.lng l) latitude longitude
               = Geo.Num d /\ d > 20)
           \/ (now - Last.timestamp l > 60000)%Z ->
           successWith distance latitude longitude now st
           = mkApp (messages st) (isLoading st) (preferences st)
                   (Some (mkLatLng latitude longitude))
                   (Some (Last.mk latitude longitude now)) (inFlight st))
          /\ (~ ((exists d,
                     distance (Last.lat l) (Last.lng l) latitude longitude
                     = Geo.Num d /\ d > 20)
                 \/ (now - Last.timestamp l > 60000)%Z) ->
              successWith distance latitude longitude now st = st))
      /\ (forall l latitude longitude now st,
          lastLocationRef st = Some l ->
          distance (Last.lat l) (Last.lng l) latitude longitude = Geo.Num 20 ->
          (now - Last.timestamp l < 60000)%Z ->
          successWith distance latitude longitude now st = st)
      /\ (forall l latitude longitude now st,
          lastLocationRef st = Some l ->
          distance (Last.lat l) (Last.lng l) latitude longitude
          = Geo.Num (2001 / 100) ->
          (now - Last.timestamp l < 60000)%Z ->
          successWith distance latitude longitude now st
          = mkApp (messages st) (isLoading st) (preferences st)
                  (Some (mkLatLng latitude longitude))
                  (Some (Last.mk latitude longitude now)) (inFlight st))
      /\ (forall l latitude longitude now st,
          lastLocationRef st = Some l ->
          distance (Last.lat l) (Last.lng l) latitude longitude = Geo.Num 0 ->
          (now - Last.timestamp l = 60001)%Z ->
          successWith distance latitude longitude now st
          = mkApp (messages st) (isLoading st) (preferences st)
                  (Some (mkLatLng latitude longitude))
                  (Some (Last.mk latitude longitude now)) (inFlight st))
      /\ (forall l latitude longitude now st,
          lastLocationRef st = Some l ->
          distance (Last.lat l) (Last.lng l) latitude longitude = Geo.NaN ->
          (now - Last.timestamp l <= 60000)%Z ->
          successWith distance latitude longitude now st = st))
  /\ (forall latitude longitude now st,
      success latitude longitude now st
      = successWith Geo.getDistanceFromLatLonInMeters latitude longitude
                    now st).
Proof.
  split; [| exact success_with].
  intros distance.
  split; [| split; [| split; [| split; [| split]]]].
  - intros latitude longitude now st Hnone.
    apply successWith_accepts. rewrite Hnone. reflexivity.
  - intros l latitude longitude now st Hlast. split.
    + intros Hcond. apply successWith_accepts. rewrite Hlast.
      apply shouldUpdateWith_later. exact Hcond.
    + intros Hcond. apply successWith_rejects. rewrite Hlast.
      destruct (shouldUpdateWith distance (Some l) latitude longitude now)
        eqn:Hd; [| reflexivity].
      apply shouldUpdateWith_later in Hd. contradiction.
  - intros l latitude longitude now st Hlast Hdist Hsoon.
    apply successWith_rejects. rewrite Hlast.
    apply shouldUpdateWith_rejects. split; [| lia].
    intros d Hd. rewrite Hdist in Hd. injection Hd as Hd. lra.
  - intros l latitude longitude now st Hlast Hdist Hsoon.
    apply successWith_accepts. rewrite Hlast.
    apply shouldUpdateWith_later. left.
    exists (2001 / 100). split; [exact Hdist | lra].
  - intros l latitude longitude now st Hlast Hdist Hlate.
    apply successWith_accepts. rewrite Hlast.
    apply shouldUpdateWith_later. right. lia.
  - intros l latitude longitude now st Hlast Hdist Hsoon.
    apply successWith_rejects. rewrite Hlast.
    apply shouldUpdateWith_rejects. split; [| exact Hsoon].
    intros d Hd. rewrite Hdist in Hd. discriminate Hd.
Qed.

(** Two latitudes on the meridian of longitude 0 that lie exactly 20 m and
    20.01 m north of the equator, as the formula of the code measures it in
    real numbers. *)
Lemma twenty_meters_north :
  Geo.getDistanceFromLatLonInMeters 0 0 (3600 / (6371000 * PI)) 0
  = Geo.Num 20.
Proof.
  assert (HPI : 1 < PI / 2) by apply PI2_1.
  assert (Hpos : 0 < 3600 / (6371000 * PI)).
  { apply Rdiv_lt_0_compat; nra. }
  assert (Hsmall : 3600 / (6371000 * PI) < 180).
  { apply Rmult_lt_reg_r with (6371000 * PI); [nra |].
    unfold Rdiv. rewrite Rmult_assoc, Rinv_l by nra. nra. }
  rewrite GeoFacts.distance_along_meridian by lra.
  f_equal. unfold Geo.deg2rad. field. lra.
Qed.

Lemma twenty_meters_and_a_centimeter_north :
  Geo.getDistanceFromLatLonInMeters 0 0 (36018 / (10 * 6371000 * PI)) 0
  = Geo.Num (2001 / 100).
Proof.
  assert (HPI : 1 < PI / 2) by apply PI2_1.
  assert (Hpos : 0 < 36018 / (10 * 6371000 * PI)).
  { apply Rdiv_lt_0_compat; nra. }
  assert (Hsmall : 36018 / (10 * 6371000 * PI) < 180).
  { apply Rmult_lt_reg_r with (10 * 6371000 * PI); [nra |].
    unfold Rdiv. rewrite Rmult_assoc, Rinv_l by nra. nra. }
  rewrite GeoFacts.distance_along_meridian by lra.
  f_equal. unfold Geo.deg2rad. field. lra.
Qed.

Lemma jitter_filter_decision_witness :
  successWith Geo.getDistanceFromLatLonInMeters
              (3600 / (6371000 * PI)) 0 59999
              (fallbackSuccess 0 0 0 (initialState 0))
  = fallbackSuccess 0 0 0 (initialState 0)
  /\ lastLocationRef
       (successWith Geo.getDistanceFromLatLonInMeters
                    (36018 / (10 * 6371000 * PI)) 0 59999
                    (fallbackSuccess 0 0 0 (initialState 0)))
     = Some (Last.mk (36018 / (10 * 6371000 * PI)) 0 59999)
  /\ lastLocationRef
       (successWith Geo.getDistanceFromLatLonInMeters 0 0 60001
                    (fallbackSuccess 0 0 0 (initialState 0)))
     = Some (Last.mk 0 0 60001).
Proof.
  destruct jitter_filter_decision as (Hany & _).
  destruct (Hany Geo.getDistanceFromLatLonInMeters)
    as (_ & _ & Hreject & Haccept & Hfresh & _).
  split; [| split].
  - apply (Hreject (Last.mk 0 0 0)).
    + reflexivity.
    + exact twenty_meters_north.
    + simpl. lia.
  - rewrite (Haccept (Last.mk 0 0 0)).
    + reflexivity.
    + reflexivity.
    + exact twenty_meters_and_a_centimeter_north.
    + simpl. lia.
  - rewrite (Hfresh (Last.mk 0 0 0)).
    + reflexivity.
    + reflexivity.
    + apply GeoFacts.distance_same_point.
    + simpl. lia.
Defined.

End FilterFacts.

(** ** The single-map policy of [ChatMessage.tsx] *)

Module MessageViewFacts.
Import Types MessageView.

Lemma head_of_filter {A : Type} (p : A -> bool) (l : list A) (c : A)
    (rest : list A) :
  filter p l = c :: rest ->
  exists pre post,
    l = pre ++ c :: post /\ p c = true
    /\ Forall (fun x => p x = false) pre.
Proof.
  induction l as [| x l IH]; simpl; intros Hf.
  - discriminate Hf.
  - destruct (p x) eqn:Hpx.
    + injection Hf as Hx Hrest. subst x.
      exists [], l. repeat split; [exact Hpx | constructor].
    + destruct (IH Hf) as (pre & post & Hl & Hc & Hpre).
      exists (x :: pre), post. subst l. repeat split.
      * exact Hc.
      * constructor; assumption.
Qed.

Lemma filter_nil_all_false {A : Type} (p : A -> bool) (l : list A) :
  filter p l = [] -> Forall (fun x => p x = false) l.
Proof.
  induction l as [| x l IH]; simpl; intros Hf.
  - constructor.
  - destruct (p x) eqn:Hpx; [discriminate Hf |].
    constructor; [exact Hpx | exact (IH Hf)].
Qed.

(** C4, as the code has it.  The component selects one chunk: the first
    one, in source order, that has a [maps] object with a non-empty [uri];
    no chunk when there is none (or no chunk list).  Web chunks are never
    selected, nor is a later map chunk; on web A, map M1, web B, map M2 the
    selection is M1. *)
Theorem primaryMapChunk_is_first_map :
  (forall message c,
      primaryMapChunk message = Some c ->
      exists chunks pre post,
        groundingChunks message = Some chunks
        /\ chunks = pre ++ c :: post
        /\ hasMapsUri c = true
        /\ Forall (fun x => hasMapsUri x = false) pre)
  /\ (forall message,
      primaryMapChunk message = None ->
      forall chunks, groundingChunks message = Some chunks ->
                     Forall (fun x => hasMapsUri x = false) chunks)
  /\ (forall message, (List.length (shownChunks message) <= 1)%nat)
  /\ primaryMapChunk exampleMessage = Some mapM1.
Proof.
  split; [| split; [| split]].
  - intros message c. unfold primaryMapChunk, mapChunks.
    destruct (groundingChunks message) as [chunks |]; [| discriminate].
    destruct (filter hasMapsUri chunks) as [| c' rest] eqn:Hf; [discriminate |].
    intros Hc. injection Hc as Hc. subst c'.
    destruct (head_of_filter _ _ _ _ Hf) as (pre & post & Hl & Hp & Hpre).
    exists chunks, pre, post. repeat split; assumption.
  - intros message. unfold primaryMapChunk, mapChunks.
    intros Hnone chunks Hsome. rewrite Hsome in Hnone.
    destruct (filter hasMapsUri chunks) as [| c' rest] eqn:Hf;
      [| discriminate].
    apply filter_nil_all_false. exact Hf.
  - intros message. unfold shownChunks.
    destruct (primaryMapChunk message); simpl; lia.
  - reflexivity.
Qed.

Lemma primaryMapChunk_is_first_map_witness :
  exists chunks pre post,
    groundingChunks exampleMessage = Some chunks
    /\ chunks = pre ++ mapM1 :: post
    /\ hasMapsUri mapM1 = true
    /\ Forall (fun x => hasMapsUri x = false) pre.
Proof.
  destruct primaryMapChunk_is_first_map as (Hsome & _).
  apply (Hsome exampleMessage mapM1). reflexivity.
Defined.

(** C4 as the specification states it does not hold of the code: on web A,
    map M1, web B, map M2 the reconciler of the specification returns web A,
    map M1, web B, while the component shows M1 alone, and the message keeps
    all four chunks of the response. *)
Lemma reconciler_drops_web_citations :
  reconcile_spec exampleChunks = [webA; mapM1; webB]
  /\ shownChunks exampleMessage = [mapM1]
  /\ shownChunks exampleMessage <> reconcile_spec exampleChunks
  /\ groundingChunks
       (App.botMsg "answer" (Service.mkResponse "Take the train."
                                                (Some exampleChunks)) 0)
     = Some exampleChunks
  /\ Some exampleChunks <> Some (reconcile_spec exampleChunks).
Proof.
  repeat split.
  - intros H. discriminate H.
  - intros H. discriminate H.
Qed.

End MessageViewFacts.

(** ** Blank input and the input area *)

Module InputFacts.
Import Types InputArea.

Lemma two_bytes_lead (c1 c2 : ascii) :
  isWhiteSpace2 c1 c2 = true -> isWhiteSpace c1 = false.
Proof.
  unfold isWhiteSpace2, isWhiteSpace. intros H2.
  apply andb_true_iff in H2 as [Hlead _].
  apply Nat.eqb_eq in Hlead. rewrite Hlead. reflexivity.
Qed.

Lemma three_bytes_lead (c1 c2 c3 : ascii) :
  isWhiteSpace3 c1 c2 c3 = true ->
  isWhiteSpace c1 = false /\ isWhiteSpace2 c1 c2 = false.
Proof.
  unfold isWhiteSpace3, isWhiteSpace2, isWhiteSpace.
  remember (nat_of_ascii c1) as n1 eqn:Hn1. clear Hn1.
  intros H3.
  repeat (apply orb_true_iff in H3 as [H3 | H3]);
    repeat (apply andb_true_iff in H3 as [H3 _]);
    apply Nat.eqb_eq in H3; subst n1; split; reflexivity.
Qed.

Lemma trimStartChars_blank (l : list ascii) :
  WhiteSpaceOnly l -> trimStartChars l = [].
Proof.
  induction 1 as [| c rest Hc _ IH | c1 c2 rest H2 _ IH
                  | c1 c2 c3 rest H3 _ IH].
  - reflexivity.
  - cbn [trimStartChars]. rewrite Hc. exact IH.
  - cbn [trimStartChars]. rewrite (two_bytes_lead c1 c2 H2), H2. exact IH.
  - destruct (three_bytes_lead c1 c2 c3 H3) as [H1 H2].
    cbn [trimStartChars]. rewrite H1, H2, H3. exact IH.
Qed.

(** One step of [trimStartChars]: it stops and returns its argument, or it
    goes on with a shorter list. *)
Lemma trimStartChars_step (l : list ascii) :
  trimStartChars l = l
  \/ exists front rest,
      l = (front ++ rest)%list /\ front <> [] /\ WhiteSpaceOnly front
      /\ trimStartChars l = trimStartChars rest.
Proof.
  destruct l as [| c1 rest1]; [left; reflexivity |].
  cbn [trimStartChars].
  destruct (isWhiteSpace c1) eqn:H1.
  { right. exists [c1], rest1. repeat split; try discriminate.
    apply ws_one; [exact H1 | apply ws_nil]. }
  destruct rest1 as [| c2 rest2]; [left; reflexivity |].
  destruct (isWhiteSpace2 c1 c2) eqn:H2.
  { right. exists [c1; c2], rest2. repeat split; try discriminate.
    apply ws_two; [exact H2 | apply ws_nil]. }
  destruct rest2 as [| c3 rest3]; [left; reflexivity |].
  destruct (isWhiteSpace3 c1 c2 c3) eqn:H3.
  { right. exists [c1; c2; c3], rest3. repeat split; try discriminate.
    apply ws_three; [exact H3 | apply ws_nil]. }
  left. reflexivity.
Qed.

Lemma WhiteSpaceOnly_app (l1 l2 : list ascii) :
  WhiteSpaceOnly l1 -> WhiteSpaceOnly l2 -> WhiteSpaceOnly (l1 ++ l2)%list.
Proof.
  induction 1; intros H2; cbn [app];
    [exact H2 | apply ws_one | apply ws_two | apply ws_three]; auto.
Qed.

Lemma trimStartChars_by_length (n : nat) :
  forall l, (List.length l <= n)%nat ->
    trimStartChars (trimStartChars l) = trimStartChars l
    /\ (trimStartChars l = [] -> WhiteSpaceOnly l).
Proof.
  induction n as [| n IH]; intros l Hlen.
  - destruct l; [| simpl in Hlen; lia].
    split; [reflexivity | intros _; apply ws_nil].
  - destruct (trimStartChars_step l)
      as [Hstop | (front & rest & Hl & Hne & Hws & Hgo)].
    + split; [rewrite Hstop; exact Hstop |].
      intros Hnil. rewrite Hstop in Hnil. subst l. apply ws_nil.
    + assert (Hshort : (List.length rest <= n)%nat).
      { subst l. rewrite length_app in Hlen.
        destruct front; [contradiction | simpl in Hlen; lia]. }
      destruct (IH rest Hshort) as [Hidem Hblank].
      rewrite Hgo. split; [exact Hidem |].
      intros Hnil. subst l. apply WhiteSpaceOnly_app; [exact Hws |].
      apply Hblank. exact Hnil.
Qed.

Lemma trimStartChars_idempotent (l : list ascii) :
  trimStartChars (trimStartChars l) = trimStartChars l.
Proof. apply (trimStartChars_by_length (List.length l) l). lia. Qed.

Lemma trimStartChars_nil_blank (l : list ascii) :
  trimStartChars l = [] -> WhiteSpaceOnly l.
Proof. apply (trimStartChars_by_length (List.length l) l). lia. Qed.

Lemma trimChars_nil_iff (l : list ascii) :
  trimChars l = [] <-> WhiteSpaceOnly l.
Proof.
  unfold trimChars. split.
  - intros Hnil. apply trimStartChars_nil_blank.
    destruct (trimStartChars l) as [| c rest] eqn:Hstart; [reflexivity |].
    exfalso. cbn [trimEndChars] in Hnil.
    unfold isBlankChars in Hnil.
    rewrite <- Hstart, trimStartChars_idempotent, Hstart in Hnil.
    discriminate Hnil.
  - intros Hblank. rewrite (trimStartChars_blank l Hblank). reflexivity.
Qed.

(** The trimmed text is empty exactly when the text is white space only. *)
Lemma trim_empty_iff (s : string) :
  isEmpty (trim s) = true <-> WhiteSpaceOnly (list_ascii_of_string s).
Proof.
  unfold trim. rewrite <- trimChars_nil_iff.
  destruct (trimChars (list_ascii_of_string s)) as [| c rest]; simpl.
  - split; reflexivity.
  - split; intros Hf; discriminate Hf.
Qed.

Lemma handleSubmit_blank {S : Type} (onSend : string -> S -> S)
    (isLoading : bool) (input : string) (st : S) :
  WhiteSpaceOnly (list_ascii_of_string input) ->
  handleSubmit onSend isLoading input st = (st, input).
Proof.
  intros Hblank. unfold handleSubmit.
  apply trim_empty_iff in Hblank. rewrite Hblank. reflexivity.
Qed.

Lemma handleSubmit_sends {S : Type} (onSend : string -> S -> S)
    (input : string) (st : S) :
  ~ WhiteSpaceOnly (list_ascii_of_string input) ->
  handleSubmit onSend false input st = (onSend input st, EmptyString).
Proof.
  intros Hnonblank. unfold handleSubmit.
  destruct (isEmpty (trim input)) eqn:He.
  - apply trim_empty_iff in He. contradiction.
  - reflexivity.
Qed.

Lemma handleSubmit_loading {S : Type} (onSend : string -> S -> S)
    (input : string) (st : S) :
  handleSubmit onSend true input st = (st, input).
Proof.
  unfold handleSubmit. rewrite orb_true_r. reflexivity.
Qed.

End InputFacts.

(** ** The session: [handleSendMessage] and the events around it *)

Module SessionFacts.
Import Types Service App.

Local Open Scope list_scope.

Lemma firstn_length_app {A : Type} (l : list A) (x : A) :
  firstn (List.length l) (l ++ [x]) = l.
Proof.
  induction l as [| y l IH]; simpl; [reflexivity | now rewrite IH].
Qed.

Lemma skipn_past_app {A : Type} (l : list A) (x : A) :
  skipn (S (List.length l)) (l ++ [x]) = [].
Proof.
  induction l as [| y l IH]; simpl; [reflexivity | exact IH].
Qed.

Lemma append_two {A : Type} (l : list A) (x y : A) :
  (l ++ [x]) ++ [y] = l ++ [x; y].
Proof. rewrite <- app_assoc. reflexivity. Qed.

Lemma validHistory_app (l1 l2 : list ChatMessage) :
  validHistory (l1 ++ l2) = validHistory l1 ++ validHistory l2.
Proof. unfold validHistory. apply filter_app. Qed.

Lemma truthy_true (b : option bool) : truthy b = true <-> b = Some true.
Proof.
  destruct b as [[|] |]; simpl; split; intros Hb;
    (reflexivity || discriminate Hb).
Qed.

Lemma validHistory_In (l : list ChatMessage) (m : ChatMessage) :
  In m (validHistory l) <-> In m l /\ isError m <> Some true.
Proof.
  unfold validHistory. rewrite filter_In, negb_true_iff.
  split; intros [Hin Herr]; split; try exact Hin.
  - intros Hsome. apply truthy_true in Hsome. congruence.
  - destruct (truthy (isError m)) eqn:Ht; [| reflexivity].
    apply truthy_true in Ht. contradiction.
Qed.

Section WithPlatform.
Context `{Platform}.

(** The state when a run of [handleSendMessage] has reached its [await]. *)
Lemma begin_fields (input uid : string) (now : Z) (st : AppState) :
  messages (handleSendMessage_begin input uid now st)
    = messages st ++ [userMsg uid input now]
  /\ isLoading (handleSendMessage_begin input uid now st) = true
  /\ inFlight (handleSendMessage_begin input uid now st)
    = inFlight st ++ [outboundRequest st input].
Proof. repeat split. Qed.

Lemma settled_isLoading (outcome : Settled Response) (uid : string) (now : Z)
    (st : AppState) :
  isLoading (handleSendMessage_settled outcome uid now st) = false.
Proof. destruct outcome; reflexivity. Qed.

Lemma settled_inFlight (outcome : Settled Response) (uid : string) (now : Z)
    (st : AppState) :
  inFlight (handleSendMessage_settled outcome uid now st) = inFlight st.
Proof. destruct outcome; reflexivity. Qed.

Lemma retire_inFlight (k : nat) (st : AppState) :
  inFlight (retire k st)
  = firstn k (inFlight st) ++ skipn (S k) (inFlight st).
Proof. reflexivity. Qed.

Lemma handleSendMessage_inFlight (api : ChatRequest -> ApiResult)
    (input uid1 : string) (now1 : Z) (uid2 : string) (now2 : Z)
    (st : AppState) :
  inFlight (handleSendMessage api input uid1 now1 uid2 now2 st) = inFlight st.
Proof.
  unfold handleSendMessage. cbv zeta.
  rewrite settled_inFlight, retire_inFlight.
  destruct (begin_fields input uid1 now1 st) as (_ & _ & Hcalls).
  rewrite Hcalls, firstn_length_app, skipn_past_app, app_nil_r.
  reflexivity.
Qed.

(** C3, as the code has it.  The blank check is made by [handleSubmit] of the
    input area, before [onSend] is called: for an input of white space only
    (the empty input included; white space as [trim] knows it, in ASCII and
    beyond) the handler returns without calling [onSend], so a submit
    through the input area appends no message, leaves the loading flag as it
    is and issues no request.  Any other input is passed to [onSend] when the
    loading flag is off. *)
Theorem blank_submit_through_input_area_is_noop :
  forall input : string,
    (InputArea.WhiteSpaceOnly (list_ascii_of_string input) ->
     (forall (S : Type) (onSend : string -> S -> S) (loading : bool) (st : S),
         InputArea.handleSubmit onSend loading input st = (st, input))
     /\ (forall (uid : string) (now : Z) (st : AppState),
         submit input uid now st = (st, input)))
    /\ (~ InputArea.WhiteSpaceOnly (list_ascii_of_string input) ->
        forall (S : Type) (onSend : string -> S -> S) (st : S),
          InputArea.handleSubmit onSend false input st
          = (onSend input st, EmptyString)).
Proof.
  intros input. split.
  - intros Hblank. split.
    + intros S onSend loading st.
      apply InputFacts.handleSubmit_blank. exact Hblank.
    + intros uid now st. unfold submit.
      apply InputFacts.handleSubmit_blank. exact Hblank.
  - intros Hnonblank S onSend st.
    apply InputFacts.handleSubmit_sends. exact Hnonblank.
Qed.

Lemma singleFlight_step (st : AppState) (e : Event) :
  singleFlight st -> singleFlight (step st e).
Proof.
  intros Hinv. destruct e as [input uid now | k r uid now | la lo now
                              | la lo now | p]; simpl.
  - unfold submit, InputArea.handleSubmit.
    destruct (isEmpty (InputArea.trim input)); simpl; [exact Hinv |].
    destruct (isLoading st) eqn:Hl; simpl; [exact Hinv |].
    destruct Hinv as [[_ Hnil] | [Habs _]]; [| congruence].
    right. split; [reflexivity |].
    exists (outboundRequest st input). simpl. rewrite Hnil. reflexivity.
  - destruct (nth_error (inFlight st) k) as [req |] eqn:Hk; [| exact Hinv].
    destruct Hinv as [[_ Hnil] | [_ [r0 Hone]]].
    + rewrite Hnil in Hk. destruct k; discriminate Hk.
    + left. split; [apply settled_isLoading |].
      rewrite Hone in Hk.
      destruct k as [| k]; [| destruct k; discriminate Hk].
      destruct (sendMessageToGemini_settle r); simpl; rewrite Hone;
        reflexivity.
  - unfold success.
    destruct (shouldUpdate (lastLocationRef st) la lo now); exact Hinv.
  - exact Hinv.
  - exact Hinv.
Qed.

Lemma singleFlight_reachable (t0 : Z) (st : AppState) :
  reachable t0 st -> singleFlight st.
Proof.
  induction 1 as [| st e Hreach IH].
  - left. split; reflexivity.
  - apply singleFlight_step. exact IH.
Qed.

(** C5, as the code has it.  The guard is [handleSubmit] of the input area: a
    submit while the loading flag is on is dropped there ([onSend] is not
    called).  In every state a session reaches through the input area and
    the settling of its calls, at most one call to the remote service is
    pending, and one is pending exactly when the loading flag is on. *)
Theorem single_flight_through_input_area :
  forall (t0 : Z) (st : AppState),
    reachable t0 st ->
    (List.length (inFlight st) <= 1)%nat
    /\ (isLoading st = true <-> List.length (inFlight st) = 1%nat)
    /\ (isLoading st = true ->
        forall (input uid : string) (now : Z),
          submit input uid now st = (st, input)
          /\ step st (EvSubmit input uid now) = st).
Proof.
  intros t0 st Hreach.
  pose proof (singleFlight_reachable t0 st Hreach) as Hinv.
  split; [| split].
  - destruct Hinv as [[_ Hnil] | [_ [r Hone]]].
    + rewrite Hnil. simpl. lia.
    + rewrite Hone. simpl. lia.
  - destruct Hinv as [[Hl Hnil] | [Hl [r Hone]]].
    + rewrite Hl, Hnil. simpl. split; intros Hf; discriminate Hf.
    + rewrite Hl, Hone. simpl. split; reflexivity.
  - intros Hl input uid now.
    assert (Hs : submit input uid now st = (st, input)).
    { unfold submit. rewrite Hl. apply InputFacts.handleSubmit_loading. }
    split; [exact Hs |]. simpl. rewrite Hs. reflexivity.
Qed.

(** In a session at rest, a submit of a non-blank input followed by the
    settling of its call is one run of [handleSendMessage]. *)
Lemma run_submit_then_settle (api : ChatRequest -> ApiResult)
    (input uid1 : string) (now1 : Z) (uid2 : string) (now2 : Z)
    (st : AppState) :
  isLoading st = false ->
  inFlight st = [] ->
  ~ InputArea.WhiteSpaceOnly (list_ascii_of_string input) ->
  run st [EvSubmit input uid1 now1;
          EvSettle 0 (api (outboundRequest st input)) uid2 now2]
  = handleSendMessage api input uid1 now1 uid2 now2 st.
Proof.
  intros Hidle Hnone Hnonblank. unfold run. cbn [fold_left].
  assert (Hfirst : step st (EvSubmit input uid1 now1)
                   = handleSendMessage_begin input uid1 now1 st).
  { cbn [step]. unfold submit. rewrite Hidle.
    rewrite InputFacts.handleSubmit_sends by exact Hnonblank. reflexivity. }
  rewrite Hfirst. cbn [step].
  destruct (begin_fields input uid1 now1 st) as (_ & _ & Hcalls).
  rewrite Hcalls, Hnone. cbn [app nth_error].
  unfold handleSendMessage, sendMessageToGemini, outboundRequest.
  rewrite Hnone. reflexivity.
Qed.

Lemma handleSendMessage_messages (api : ChatRequest -> ApiResult)
    (input uid1 : string) (now1 : Z) (uid2 : string) (now2 : Z)
    (st : AppState) :
  messages (handleSendMessage api input uid1 now1 uid2 now2 st)
  = messages st
    ++ [userMsg uid1 input now1;
        match api (outboundRequest st input) with
        | ApiOk answer chunks => botMsg uid2 (mkResponse answer chunks) now2
        | ApiThrow => errorMsg uid2 now2
        end].
Proof.
  unfold handleSendMessage, sendMessageToGemini, outboundRequest. cbv zeta.
  destruct (api _) as [answer chunks |]; simpl; apply append_two.
Qed.

(** C6.  When the call to the remote service fails, one run of
    [handleSendMessage] appends exactly two messages: the user message (role
    user, the text as given, no error flag, no grounding chunks), then a
    model message with [isError = true], the fixed apology text and no
    grounding chunks; the loading flag ends false and no call stays pending.
    The flag is cleared after the [await] whatever the outcome. *)
Theorem failing_submit_appends_user_then_error :
  (forall (api : ChatRequest -> ApiResult) (input uid1 : string) (now1 : Z)
          (uid2 : string) (now2 : Z) (st : AppState),
      api (outboundRequest st input) = ApiThrow ->
      messages (handleSendMessage api input uid1 now1 uid2 now2 st)
        = messages st
          ++ [mkMsg uid1 user input now1 None None;
              mkMsg uid2 model
                    "I'm having trouble accessing the network right now. Please try again."
                    now2 (Some true) None]
      /\ isLoading (handleSendMessage api input uid1 now1 uid2 now2 st) = false
      /\ inFlight (handleSendMessage api input uid1 now1 uid2 now2 st)
         = inFlight st)
  /\ (forall (uid input : string) (now : Z),
      userMsg uid input now = mkMsg uid user input now None None)
  /\ (forall (uid : string) (now : Z),
      role (errorMsg uid now) = model
      /\ isError (errorMsg uid now) = Some true
      /\ text (errorMsg uid now)
         = "I'm having trouble accessing the network right now. Please try again."%string
      /\ groundingChunks (errorMsg uid now) = None)
  /\ (forall (outcome : Settled Response) (uid : string) (now : Z)
             (st : AppState),
      isLoading (handleSendMessage_settled outcome uid now st) = false).
Proof.
  split; [| split; [| split]].
  - intros api input uid1 now1 uid2 now2 st Hfail.
    split; [| split].
    + rewrite handleSendMessage_messages, Hfail. reflexivity.
    + apply settled_isLoading.
    + apply handleSendMessage_inFlight.
  - reflexivity.
  - intros uid now. repeat split.
  - exact settled_isLoading.
Qed.

(** C7.  When the call to the remote service succeeds, one run of
    [handleSendMessage] appends exactly two messages: the user message, then
    a model message with the text and the grounding chunks of the response;
    the loading flag ends false. *)
Theorem successful_submit_appends_user_then_model :
  forall (api : ChatRequest -> ApiResult) (input uid1 : string) (now1 : Z)
         (uid2 : string) (now2 : Z) (st : AppState)
         (answer : string) (chunks : option (list GroundingChunk)),
    api (outboundRequest st input) = ApiOk answer chunks ->
    messages (handleSendMessage api input uid1 now1 uid2 now2 st)
      = messages st
        ++ [mkMsg uid1 user input now1 None None;
            mkMsg uid2 model answer now2 None chunks]
    /\ isLoading (handleSendMessage api input uid1 now1 uid2 now2 st) = false
    /\ inFlight (handleSendMessage api input uid1 now1 uid2 now2 st)
       = inFlight st.
Proof.
  intros api input uid1 now1 uid2 now2 st answer chunks Hok.
  split; [| split].
  - rewrite handleSendMessage_messages, Hok. reflexivity.
  - apply settled_isLoading.
  - apply handleSendMessage_inFlight.
Qed.

(** C8.  The remote service is called with one request, and its outcome is
    what the run appends: the request carries, as history, the role and text
    of exactly the messages of the conversation that are not error messages,
    in conversation order; the conversation it is taken from is the one
    before the new user message is appended, and the new text goes as the
    live message.  [validHistory] keeps a message exactly when its [isError]
    is not [true], and keeps the order. *)
Theorem outbound_history_is_prior_non_error_messages :
  forall (input uid : string) (now : Z) (st : AppState),
    (forall (api : ChatRequest -> ApiResult),
        sendMessageToGemini api (messages st) input (preferences st)
                            (userLocation st)
        = match
            api (mkRequest MODEL_NAME
                   (getSystemInstruction (preferences st) (userLocation st))
                   [googleSearch; googleMaps] (userLocation st)
                   (map (fun m => mkContent (role m) (text m))
                        (filter (fun m => negb (truthy (isError m)))
                                (messages st)))
                   input)
          with
          | ApiOk answer chunks => Fulfilled (mkResponse answer chunks)
          | ApiThrow =>
              Rejected "I'm having trouble connecting to the transit network right now. Please try again in a moment."
          end)
    /\ (forall (api : ChatRequest -> ApiResult) (uid2 : string) (now2 : Z),
        messages (handleSendMessage api input uid now uid2 now2 st)
        = messages st
          ++ [mkMsg uid user input now None None;
              match
                api (mkRequest MODEL_NAME
                       (getSystemInstruction (preferences st)
                                             (userLocation st))
                       [googleSearch; googleMaps] (userLocation st)
                       (map (fun m => mkContent (role m) (text m))
                            (filter (fun m => negb (truthy (isError m)))
                                    (messages st)))
                       input)
              with
              | ApiOk answer chunks => mkMsg uid2 model answer now2 None chunks
              | ApiThrow =>
                  mkMsg uid2 model
                        "I'm having trouble accessing the network right now. Please try again."
                        now2 (Some true) None
              end])
    /\ inFlight (handleSendMessage_begin input uid now st)
      = inFlight st ++ [outboundRequest st input]
    /\ messages (handleSendMessage_begin input uid now st)
      = messages st ++ [mkMsg uid user input now None None]
    /\ history (outboundRequest st input)
      = map (fun m => mkContent (role m) (text m))
            (validHistory (messages st))
    /\ message (outboundRequest st input) = input
    /\ (forall m, In m (validHistory (messages st))
                  <-> In m (messages st) /\ isError m <> Some true)
    /\ (forall l1 l2, validHistory (l1 ++ l2)
                      = validHistory l1 ++ validHistory l2)
    /\ (forall m, validHistory [m]
                  = if truthy (isError m) then [] else [m]).
Proof.
  intros input uid now st.
  destruct (begin_fields input uid now st) as (Hm & _ & Hc).
  split; [intros api; reflexivity |].
  split.
  { intros api uid2 now2. rewrite handleSendMessage_messages.
    unfold outboundRequest, sendMessageToGemini_request, validHistory.
    cbv zeta.
    destruct (api _) as [answer chunks |]; reflexivity. }
  split; [exact Hc |]. split; [exact Hm |].
  split; [reflexivity |]. split; [reflexivity |].
  split; [intros m; apply validHistory_In |].
  split; [exact validHistory_app |].
  intros m. unfold validHistory. simpl.
  destruct (truthy (isError m)); reflexivity.
Qed.

(** The instruction text does not read [useCurrentLocation]. *)
Lemma getSystemInstruction_reads (p1 p2 : UserPreferences)
    (loc : option LatLng) :
  routePreference p1 = routePreference p2 ->
  accessibilityRequired p1 = accessibilityRequired p2 ->
  getSystemInstruction p1 loc = getSystemInstruction p2 loc.
Proof.
  intros Hr Ha. unfold getSystemInstruction, preferencesText.
  rewrite Hr, Ha. reflexivity.
Qed.

(** C9.  The instruction text is a function of the preferences and the
    location alone: equal preferences and equal locations (both absent
    included) give the same text, byte for byte. *)
Theorem system_instruction_deterministic :
  forall (prefs1 prefs2 : UserPreferences) (loc1 loc2 : option LatLng),
    prefs1 = prefs2 -> loc1 = loc2 ->
    getSystemInstruction prefs1 loc1 = getSystemInstruction prefs2 loc2.
Proof.
  intros prefs1 prefs2 loc1 loc2 Hp Hl. subst loc2.
  apply getSystemInstruction_reads; rewrite Hp; reflexivity.
Qed.




End WithPlatform.


(** *** Closed instances *)

Lemma blank_submit_through_input_area_is_noop_witness :
  @submit examplePlatform "   " "u1" 1 (initialState 0)
  = (initialState 0, "   "%string)
  /\ @submit examplePlatform noBreakAndIdeographicSpace "u1" 1
             (initialState 0)
     = (initialState 0, noBreakAndIdeographicSpace).
Proof.
  split.
  - apply (@blank_submit_through_input_area_is_noop examplePlatform "   ").
    repeat (apply InputArea.ws_one; [reflexivity |]). apply InputArea.ws_nil.
  - apply (@blank_submit_through_input_area_is_noop examplePlatform
             noBreakAndIdeographicSpace).
    apply InputArea.ws_two; [reflexivity |].
    apply InputArea.ws_three; [reflexivity |].
    apply InputArea.ws_nil.
Defined.

(** C3 as the specification states it does not hold of the code:
    [handleSendMessage] makes no blank check.  Called with the empty text, or
    with three spaces, in the first state of a session it appends a user
    message, turns the loading flag on and issues a request. *)
Lemma core_submit_of_blank_text_is_not_noop :
  messages (@handleSendMessage_begin examplePlatform EmptyString "u1" 1
                                     (initialState 0))
    = [welcome 0; mkMsg "u1" user EmptyString 1 None None]
  /\ isLoading (initialState 0) = false
  /\ isLoading (@handleSendMessage_begin examplePlatform EmptyString "u1" 1
                                         (initialState 0)) = true
  /\ inFlight (initialState 0) = []
  /\ List.length (inFlight (@handleSendMessage_begin examplePlatform EmptyString "u1" 1
                                                     (initialState 0)))
     = 1%nat
  /\ messages (@handleSendMessage_begin examplePlatform "   " "u1" 1
                                        (initialState 0))
    = [welcome 0; mkMsg "u1" user "   " 1 None None]
  /\ @handleSendMessage_begin examplePlatform "   " "u1" 1 (initialState 0)
     <> initialState 0.
Proof.
  repeat split. intros Heq.
  apply (f_equal isLoading) in Heq. discriminate Heq.
Qed.

Lemma single_flight_through_input_area_witness :
  (List.length
     (inFlight (@step examplePlatform (initialState 0) (EvSubmit "a" "u1" 1)))
   <= 1)%nat
  /\ isLoading (@step examplePlatform (initialState 0) (EvSubmit "a" "u1" 1))
     = true
  /\ @submit examplePlatform "b" "u2" 2
       (@step examplePlatform (initialState 0) (EvSubmit "a" "u1" 1))
     = (@step examplePlatform (initialState 0) (EvSubmit "a" "u1" 1),
        "b"%string).
Proof.
  destruct (@single_flight_through_input_area examplePlatform 0
              (@step examplePlatform (initialState 0) (EvSubmit "a" "u1" 1)))
    as (Hle & _ & Hgate).
  - apply reach_step. apply reach_init.
  - split; [exact Hle |]. split; [reflexivity |].
    apply (Hgate eq_refl "b"%string "u2"%string 2%Z).
Defined.

(** C5 as the specification states it does not hold of the code:
    [handleSendMessage] does not look at the loading flag.  Called a second
    time while the first call is pending (loading flag on, one request in
    flight), it issues a second request: two calls are pending at once. *)
Lemma core_submit_while_loading_starts_second_call :
  isLoading exampleLoading = true
  /\ List.length (inFlight exampleLoading) = 1%nat
  /\ isLoading exampleTwoCalls = true
  /\ List.length (inFlight exampleTwoCalls) = 2%nat
  /\ messages exampleTwoCalls
     = [welcome 0; mkMsg "u1" user "a" 1 None None;
        mkMsg "u2" user "b" 2 None None].
Proof. repeat split. Qed.

Lemma failing_submit_appends_user_then_error_witness :
  messages (@handleSendMessage examplePlatform (fun _ => ApiThrow)
                               "a" "u1" 1 "u2" 2 (initialState 0))
  = [welcome 0; mkMsg "u1" user "a" 1 None None;
     mkMsg "u2" model
           "I'm having trouble accessing the network right now. Please try again."
           2 (Some true) None]
  /\ isLoading (@handleSendMessage examplePlatform (fun _ => ApiThrow)
                                   "a" "u1" 1 "u2" 2 (initialState 0))
     = false.
Proof.
  destruct (@failing_submit_appends_user_then_error examplePlatform)
    as (Hfail & _).
  destruct (Hfail (fun _ => ApiThrow) "a"%string "u1"%string 1%Z
                  "u2"%string 2%Z (initialState 0) eq_refl)
    as (Hm & Hl & _).
  split; [exact Hm | exact Hl].
Defined.

Lemma successful_submit_appends_user_then_model_witness :
  messages (@handleSendMessage examplePlatform
              (fun _ => ApiOk "Take the train."
                              (Some MessageView.exampleChunks))
              "a" "u1" 1 "u2" 2 (initialState 0))
  = [welcome 0; mkMsg "u1" user "a" 1 None None;
     mkMsg "u2" model "Take the train." 2 None
           (Some MessageView.exampleChunks)]
  /\ isLoading (@handleSendMessage examplePlatform
                  (fun _ => ApiOk "Take the train."
                                  (Some MessageView.exampleChunks))
                  "a" "u1" 1 "u2" 2 (initialState 0))
     = false.
Proof.
  destruct (@successful_submit_appends_user_then_model examplePlatform
              (fun _ => ApiOk "Take the train."%string
                              (Some MessageView.exampleChunks))
              "a"%string "u1"%string 1%Z "u2"%string 2%Z (initialState 0)
              "Take the train."%string (Some MessageView.exampleChunks)
              eq_refl)
    as (Hm & Hl & _).
  split; [exact Hm | exact Hl].
Defined.

Lemma system_instruction_deterministic_witness :
  @getSystemInstruction examplePlatform defaultPreferences
                        (Some (mkLatLng 1 2))
  = @getSystemInstruction examplePlatform (mkPrefs FASTEST false true)
                          (Some (mkLatLng 1 2)).
Proof.
  apply (@system_instruction_deterministic examplePlatform); reflexivity.
Defined.


End SessionFacts.

(** ** More on the distance and the jitter filter *)

Module FilterExtra.
Import Types App AppUI.

Local Open Scope R_scope.

Lemma radicand_nonneg (lat1 lon1 lat2 lon2 : R) :
  0 <= radicand lat1 lon1 lat2 lon2.
Proof.
  unfold radicand.
  pose proof (Rle_0_sqr (sin (Geo.deg2rad (lat2 - lat1) / 2))) as H1.
  pose proof (Rle_0_sqr (cos (Geo.deg2rad lat1)
                         * sin (Geo.deg2rad (lon2 - lon1) / 2))) as H2.
  unfold Rsqr in H1, H2. lra.
Qed.

Lemma distance_by_radicand (lat1 lon1 lat2 lon2 : R) :
  radicand lat1 lon1 lat2 lon2 <= 1 ->
  Geo.getDistanceFromLatLonInMeters lat1 lon1 lat2 lon2
  = Geo.Num
      (6371 * (2 * Geo.atan2 (sqrt (radicand lat1 lon1 lat2 lon2))
                             (sqrt (1 - radicand lat1 lon1 lat2 lon2)))
       * 1000).
Proof.
  intros Hle. apply GeoFacts.distance_num; [reflexivity |].
  split; [apply radicand_nonneg | exact Hle].
Qed.

Lemma atan_nonneg (x : R) : 0 <= x -> 0 <= atan x.
Proof.
  intros [Hpos | Hzero].
  - left. rewrite <- atan_0. apply atan_increasing. exact Hpos.
  - subst x. rewrite atan_0. lra.
Qed.

(** In the first quadrant [atan2] is between 0 and a right angle. *)
Lemma atan2_first_quadrant (y x : R) :
  0 <= y -> 0 <= x -> 0 <= Geo.atan2 y x <= PI / 2.
Proof.
  intros Hy Hx. pose proof PI_RGT_0 as HPI. unfold Geo.atan2.
  destruct (Rlt_dec 0 x) as [Hpos | Hnpos].
  - split.
    + apply atan_nonneg. apply Rmult_le_pos; [exact Hy |].
      left. apply Rinv_0_lt_compat. exact Hpos.
    + left. apply atan_bound.
  - destruct (Rlt_dec x 0) as [Hneg | _]; [lra |].
    destruct (Rlt_dec 0 y) as [_ | _]; [lra |].
    destruct (Rlt_dec y 0) as [Hyneg | _]; lra.
Qed.

(** X1.  Where the radicand [1 - a] of the code is not negative, the
    computed distance is a number that lies between 0 and half the
    circumference of the sphere, 6371000 * PI meters; where it is negative,
    the computed distance is not a number. *)
Theorem distance_between_zero_and_half_circumference :
  forall lat1 lon1 lat2 lon2 : R,
    (radicand lat1 lon1 lat2 lon2 <= 1 ->
     exists d,
       Geo.getDistanceFromLatLonInMeters lat1 lon1 lat2 lon2 = Geo.Num d
       /\ 0 <= d <= 6371000 * PI)
    /\ (1 < radicand lat1 lon1 lat2 lon2 ->
        Geo.getDistanceFromLatLonInMeters lat1 lon1 lat2 lon2 = Geo.NaN).
Proof.
  intros lat1 lon1 lat2 lon2. split.
  - intros Hle. eexists. split; [apply distance_by_radicand; exact Hle |].
    pose proof (atan2_first_quadrant
                  (sqrt (radicand lat1 lon1 lat2 lon2))
                  (sqrt (1 - radicand lat1 lon1 lat2 lon2))
                  (sqrt_pos _) (sqrt_pos _)) as [Hlo Hhi].
    split; lra.
  - intros Hgt.
    apply (GeoFacts.distance_nan lat1 lon1 lat2 lon2
             (radicand lat1 lon1 lat2 lon2) eq_refl Hgt).
Qed.

Lemma radicand_same_point (lat1 lon1 : R) : radicand lat1 lon1 lat1 lon1 = 0.
Proof.
  unfold radicand, Geo.deg2rad.
  replace ((lat1 - lat1) * (PI / 180) / 2) with 0 by lra.
  replace ((lon1 - lon1) * (PI / 180) / 2) with 0 by lra.
  rewrite sin_0. lra.
Qed.

Lemma radicand_equator_to_pole : radicand 0 0 90 60 = 3 / 4.
Proof. exact GeoFacts.radicand_value_equator_to_pole. Qed.

(** From the equator to the pole across half a turn of longitude the [a] of
    the code is 3/2. *)
Lemma radicand_across_the_pole : radicand 0 0 90 180 = 3 / 2.
Proof.
  unfold radicand, Geo.deg2rad.
  replace ((90 - 0) * (PI / 180) / 2) with (PI / 4) by lra.
  replace ((180 - 0) * (PI / 180) / 2) with (PI / 2) by lra.
  replace (0 * (PI / 180)) with 0 by lra.
  rewrite cos_0, sin_PI2.
  pose proof GeoFacts.sin_PI4_sq. lra.
Qed.

Lemma distance_between_zero_and_half_circumference_witness :
  radicand 0 0 90 60 <= 1
  /\ (exists d,
         Geo.getDistanceFromLatLonInMeters 0 0 90 60 = Geo.Num d
         /\ 0 <= d <= 6371000 * PI)
  /\ Geo.getDistanceFromLatLonInMeters 0 0 90 180 = Geo.NaN.
Proof.
  assert (Hr : radicand 0 0 90 60 <= 1)
    by (rewrite radicand_equator_to_pole; lra).
  split; [exact Hr |]. split.
  - apply (distance_between_zero_and_half_circumference 0 0 90 60). exact Hr.
  - apply (distance_between_zero_and_half_circumference 0 0 90 180).
    rewrite radicand_across_the_pole. lra.
Defined.

(** The arc for an angle of any sign, up to a right angle. *)
Lemma atan2_abs_sin_cos (t : R) :
  - (PI / 2) <= t <= PI / 2 ->
  Geo.atan2 (sqrt (sin t * sin t)) (sqrt (1 - sin t * sin t)) = Rabs t.
Proof.
  intros Ht. pose proof PI_RGT_0 as HPI.
  rewrite GeoFacts.one_minus_sin_sq.
  assert (Hsq : sin t * sin t = sin (Rabs t) * sin (Rabs t)).
  { unfold Rabs. destruct (Rcase_abs t); [rewrite sin_neg; lra | reflexivity]. }
  assert (Hcq : cos t * cos t = cos (Rabs t) * cos (Rabs t)).
  { unfold Rabs. destruct (Rcase_abs t); [rewrite cos_neg |]; reflexivity. }
  rewrite Hsq, Hcq.
  assert (Ha : 0 <= Rabs t <= PI / 2).
  { split; [apply Rabs_pos |]. unfold Rabs. destruct (Rcase_abs t); lra. }
  set (u := Rabs t) in *.
  assert (Hs : 0 <= sin u) by (apply sin_ge_0; lra).
  assert (Hc : 0 <= cos u) by (apply cos_ge_0; lra).
  rewrite (sqrt_square (sin u)) by exact Hs.
  rewrite (sqrt_square (cos u)) by exact Hc.
  destruct Ha as [Hlo [Hlt | Heq]].
  - apply GeoFacts.atan2_sin_cos. lra.
  - rewrite Heq, sin_PI2, cos_PI2. unfold Geo.atan2.
    destruct (Rlt_dec 0 0) as [Habs | _]; [lra |].
    destruct (Rlt_dec 0 1) as [_ | Habs]; [reflexivity | lra].
Qed.

(** X2.  Between two points of the same longitude whose latitudes differ by
    at most 180 degrees, in either direction, the code returns the length of
    the arc: 6371000 m times the difference of the latitudes in radians. *)
Theorem distance_on_a_meridian_is_the_arc :
  forall lat1 lat2 lon : R,
    Rabs (lat2 - lat1) <= 180 ->
    Geo.getDistanceFromLatLonInMeters lat1 lon lat2 lon
    = Geo.Num (6371000 * (Rabs (lat2 - lat1) * (PI / 180))).
Proof.
  intros lat1 lat2 lon Hd. pose proof PI_RGT_0 as HPI.
  set (t := Geo.deg2rad (lat2 - lat1) / 2).
  rewrite (GeoFacts.distance_num lat1 lon lat2 lon (sin t * sin t)).
  2:{ fold t.
      replace (Geo.deg2rad (lon - lon)) with 0 by (unfold Geo.deg2rad; lra).
      replace (0 / 2) with 0 by lra. rewrite sin_0. lra. }
  2:{ apply GeoFacts.sin_sq_bounds. }
  f_equal.
  assert (Habs : Rabs t = Rabs (lat2 - lat1) * (PI / 180) / 2).
  { unfold t, Geo.deg2rad.
    replace ((lat2 - lat1) * (PI / 180) / 2)
      with ((lat2 - lat1) * (PI / 360)) by lra.
    rewrite Rabs_mult, (Rabs_right (PI / 360)) by lra. lra. }
  assert (Ht : - (PI / 2) <= t <= PI / 2).
  { assert (Hb : Rabs t <= PI / 2).
    { rewrite Habs.
      assert (Hm : Rabs (lat2 - lat1) * (PI / 180) <= 180 * (PI / 180)).
      { apply Rmult_le_compat_r; lra. }
      lra. }
    unfold Rabs in Hb. destruct (Rcase_abs t); lra. }
  rewrite atan2_abs_sin_cos by exact Ht.
  rewrite Habs. lra.
Qed.

Lemma distance_on_a_meridian_is_the_arc_witness :
  Geo.getDistanceFromLatLonInMeters 90 0 (-90) 0 = Geo.Num (6371000 * PI).
Proof.
  assert (Habs : Rabs (-90 - 90) = 180).
  { unfold Rabs. destruct (Rcase_abs (-90 - 90)); lra. }
  rewrite (distance_on_a_meridian_is_the_arc 90 (-90) 0).
  - rewrite Habs. f_equal. lra.
  - rewrite Habs. lra.
Defined.

End FilterExtra.

(** ** The held location *)

Module LocationFacts.
Import Types Service App AppUI.

Lemma same_fix_soon_is_rejected (l : Last.t) (now : Z) :
  (now - Last.timestamp l <= 60000)%Z ->
  shouldUpdate (Some l) (Last.lat l) (Last.lng l) now = false.
Proof.
  intros Hsoon. apply FilterFacts.shouldUpdate_rejects.
  split; [| exact Hsoon].
  intros d Hd. rewrite GeoFacts.distance_same_point in Hd.
  injection Hd as Hd. lra.
Qed.

(** X3.  Fixes that repeat the coordinates of the last accepted position, each
    at most 60000 ms after it, are all rejected: the state stays as it is,
    however many of them arrive. *)
Theorem repeated_fixes_change_nothing :
  forall (st : AppState) (l : Last.t) (times : list Z),
    lastLocationRef st = Some l ->
    Forall (fun now => (now - Last.timestamp l <= 60000)%Z) times ->
    fold_left (fun s now => success (Last.lat l) (Last.lng l) now s) times st
    = st.
Proof.
  intros st l times Hlast Hall.
  induction Hall as [| now times Hnow Hrest IH]; simpl.
  - reflexivity.
  - assert (Hstay : success (Last.lat l) (Last.lng l) now st = st).
    { unfold success. rewrite Hlast.
      rewrite (same_fix_soon_is_rejected l now Hnow). reflexivity. }
    rewrite Hstay. exact IH.
Qed.

Lemma repeated_fixes_change_nothing_witness :
  fold_left (fun s now => success 48 2 now s) [10; 5000; 60000]%Z
            (success 48 2 0 (initialState 0))
  = success 48 2 0 (initialState 0).
Proof.
  apply (repeated_fixes_change_nothing
           (success 48 2 0 (initialState 0)) (Last.mk 48 2 0)).
  - reflexivity.
  - repeat constructor; simpl; lia.
Defined.

(** X4.  Once the filter has handled a fix, a position is held: the fix
    itself, or the position held before.  It is at most 60000 ms older than
    the fix, and its computed distance to the fix, when it is a number, is
    at most 20.  This holds for the distance however it is computed,
    provided that a point is at distance 0 from itself, as it is with the
    formula of the code. *)
Theorem held_position_is_recent_and_near :
  forall distance : R -> R -> R -> R -> Geo.JsNumber,
    (forall la lo, distance la lo la lo = Geo.Num 0) ->
    forall (latitude longitude : R) (now : Z) (st : AppState),
    exists l,
      lastLocationRef (successWith distance latitude longitude now st)
      = Some l
      /\ (l = Last.mk latitude longitude now \/ lastLocationRef st = Some l)
      /\ (now - Last.timestamp l <= 60000)%Z
      /\ (forall d,
             distance (Last.lat l) (Last.lng l) latitude longitude
             = Geo.Num d -> (d <= 20)%R).
Proof.
  intros distance Hzero latitude longitude now st. unfold successWith.
  destruct (shouldUpdateWith distance (lastLocationRef st) latitude
                             longitude now) eqn:Hd.
  - exists (Last.mk latitude longitude now). simpl.
    split; [reflexivity |]. split; [left; reflexivity |]. split; [lia |].
    intros d Hdist. rewrite Hzero in Hdist. injection Hdist as Hdist. lra.
  - destruct (lastLocationRef st) as [l |] eqn:Hlast; [| discriminate Hd].
    apply FilterFacts.shouldUpdateWith_rejects in Hd as [Hnear Hsoon].
    exists l. split; [reflexivity |]. split; [right; reflexivity |].
    split; [exact Hsoon | exact Hnear].
Qed.

Lemma held_position_is_recent_and_near_witness :
  exists l,
    lastLocationRef (success 90 180 1000 (fallbackSuccess 0 0 0
                                                          (initialState 0)))
    = Some l
    /\ (1000 - Last.timestamp l <= 60000)%Z.
Proof.
  destruct (held_position_is_recent_and_near
              Geo.getDistanceFromLatLonInMeters GeoFacts.distance_same_point
              90%R 180%R 1000%Z (fallbackSuccess 0 0 0 (initialState 0)))
    as (l & Hl & _ & Hrecent & _).
  exists l. split; [exact Hl | exact Hrecent].
Defined.

Section WithPlatform.
Context `{Platform}.

Lemma locationsAgree_step (st : AppState) (e : Event) :
  locationsAgree st -> locationsAgree (step st e).
Proof.
  intros Hagree.
  destruct e as [input uid now | k r uid now | la lo now | la lo now | p];
    simpl.
  - unfold submit, InputArea.handleSubmit.
    destruct (isEmpty (InputArea.trim input) || isLoading st); exact Hagree.
  - destruct (nth_error (inFlight st) k); [| exact Hagree].
    destruct (sendMessageToGemini_settle r); exact Hagree.
  - unfold success.
    destruct (shouldUpdate (lastLocationRef st) la lo now);
      [split; reflexivity | exact Hagree].
  - split; reflexivity.
  - exact Hagree.
Qed.

Lemma locationsAgree_reachable (t0 : Z) (st : AppState) :
  reachable t0 st -> locationsAgree st.
Proof.
  induction 1 as [| st e Hreach IH].
  - exact I.
  - apply locationsAgree_step. exact IH.
Qed.

Lemma userLocation_kept (st : AppState) (e : Event) :
  userLocation st <> None -> userLocation (step st e) <> None.
Proof.
  intros Hset.
  destruct e as [input uid now | k r uid now | la lo now | la lo now | p];
    simpl.
  - unfold submit, InputArea.handleSubmit.
    destruct (isEmpty (InputArea.trim input) || isLoading st); exact Hset.
  - destruct (nth_error (inFlight st) k); [| exact Hset].
    destruct (sendMessageToGemini_settle r); exact Hset.
  - unfold success.
    destruct (shouldUpdate (lastLocationRef st) la lo now);
      [discriminate | exact Hset].
  - discriminate.
  - exact Hset.
Qed.

(** X5.  In every state of a session the user location that goes into the
    requests and the reference position of the jitter filter hold the same
    coordinates (both are absent, or both are set and equal); and no event
    clears a user location that is set. *)
Theorem user_location_follows_filter :
  (forall (t0 : Z) (st : AppState),
      reachable t0 st ->
      match lastLocationRef st, userLocation st with
      | None, None => True
      | Some l, Some u => Last.lat l = lat u /\ Last.lng l = lng u
      | _, _ => False
      end)
  /\ (forall (st : AppState) (e : Event),
      userLocation st <> None -> userLocation (step st e) <> None).
Proof.
  split.
  - intros t0 st Hreach. exact (locationsAgree_reachable t0 st Hreach).
  - exact userLocation_kept.
Qed.

(** X6.  In every state of a session, the error callback of the position
    watcher asks for the low-accuracy fallback exactly when the error is a
    timeout and no user location is known yet. *)
Theorem fallback_only_without_location :
  forall (t0 : Z) (st : AppState) (code : Z),
    reachable t0 st ->
    (error code st = true <-> userLocation st = None /\ code = TIMEOUT).
Proof.
  intros t0 st code Hreach.
  pose proof (locationsAgree_reachable t0 st Hreach) as Hagree.
  unfold locationsAgree in Hagree. unfold error.
  destruct (lastLocationRef st) as [l |], (userLocation st) as [u |];
    try contradiction.
  - split; [discriminate | intros [Hnone _]; discriminate Hnone].
  - rewrite Z.eqb_eq. split; [intros Hc; split; [reflexivity | exact Hc] |].
    intros [_ Hc]. exact Hc.
Qed.

End WithPlatform.

Lemma user_location_follows_filter_witness :
  userLocation (@step examplePlatform
                  (@step examplePlatform (initialState 0)
                         (EvFallbackPosition 48 2 5))
                  (EvPosition 48 2 7))
  <> None.
Proof.
  destruct (@user_location_follows_filter examplePlatform) as (_ & Hkept).
  apply (Hkept (@step examplePlatform (initialState 0)
                      (EvFallbackPosition 48 2 5)) (EvPosition 48 2 7)).
  discriminate.
Defined.

Lemma fallback_only_without_location_witness :
  error 3 (initialState 0) = true
  /\ error 3 (@step examplePlatform (initialState 0)
                    (EvFallbackPosition 48 2 5)) = false.
Proof.
  split.
  - apply (@fallback_only_without_location examplePlatform 0 (initialState 0)
             3%Z (reach_init 0)).
    split; reflexivity.
  - destruct (error 3 (@step examplePlatform (initialState 0)
                             (EvFallbackPosition 48 2 5))) eqn:He;
      [| reflexivity].
    apply (@fallback_only_without_location examplePlatform 0) in He
      as [Hnone _].
    + discriminate Hnone.
    + apply reach_step. apply reach_init.
Defined.

End LocationFacts.

(** ** The key handler and the send button *)

Module InputControlsFacts.
Import Types InputArea InputControls.

Lemma trim_of_empty : isEmpty (trim EmptyString) = true.
Proof. reflexivity. Qed.

Lemma handleSubmit_enabled {S : Type} (onSend : string -> S -> S)
    (isLoading : bool) (input : string) (st : S) :
  sendDisabled input isLoading = false ->
  handleSubmit onSend isLoading input st = (onSend input st, EmptyString).
Proof.
  unfold sendDisabled, handleSubmit. intros Hen. rewrite Hen. reflexivity.
Qed.

Lemma handleSubmit_disabled {S : Type} (onSend : string -> S -> S)
    (isLoading : bool) (input : string) (st : S) :
  sendDisabled input isLoading = true ->
  handleSubmit onSend isLoading input st = (st, input).
Proof.
  unfold sendDisabled, handleSubmit. intros Hdis. rewrite Hdis. reflexivity.
Qed.

Lemma handleSubmit_again {S : Type} (onSend : string -> S -> S)
    (isLoading : bool) (input : string) (st : S) :
  handleSubmit onSend isLoading
               (snd (handleSubmit onSend isLoading input st))
               (fst (handleSubmit onSend isLoading input st))
  = handleSubmit onSend isLoading input st.
Proof.
  destruct (sendDisabled input isLoading) eqn:Hd.
  - rewrite (handleSubmit_disabled onSend isLoading input st Hd). simpl.
    apply handleSubmit_disabled. exact Hd.
  - rewrite (handleSubmit_enabled onSend isLoading input st Hd). simpl.
    apply handleSubmit_disabled. unfold sendDisabled.
    rewrite trim_of_empty. reflexivity.
Qed.

(** X7.  The send button is disabled exactly when [handleSubmit] would do
    nothing: the handler leaves the state and the text area as they are if
    and only if the button's [disabled] condition holds.  When the button is
    enabled the handler passes the input on as typed, untrimmed, and empties
    the text area. *)
Theorem send_button_disabled_iff_submit_does_nothing :
  forall (S : Type) (onSend : string -> S -> S) (isLoading : bool)
         (input : string) (st : S),
    (sendDisabled input isLoading = true
     <-> handleSubmit onSend isLoading input st = (st, input))
    /\ (sendDisabled input isLoading = false ->
        handleSubmit onSend isLoading input st
        = (onSend input st, EmptyString)).
Proof.
  intros S onSend isLoading input st. split; [split |].
  - apply handleSubmit_disabled.
  - intros Hnoop.
    destruct (sendDisabled input isLoading) eqn:Hd; [reflexivity |].
    rewrite (handleSubmit_enabled onSend isLoading input st Hd) in Hnoop.
    injection Hnoop as _ Hinput. subst input.
    unfold sendDisabled in Hd. rewrite trim_of_empty in Hd. discriminate Hd.
  - apply handleSubmit_enabled.
Qed.

Lemma send_button_disabled_iff_submit_does_nothing_witness :
  handleSubmit (fun text (log : list string) => text :: log) false
               " to the station " []
  = ([" to the station "%string], EmptyString).
Proof.
  apply (send_button_disabled_iff_submit_does_nothing
           (list string) (fun text log => text :: log) false
           " to the station " []).
  reflexivity.
Defined.

(** X8.  A key press sends at most once: pressing the same key again, with
    nothing typed in between and the same loading flag, changes nothing
    more (after a send the text area is empty).  A key other than Enter, and
    Enter with Shift, never send. *)
Theorem key_press_sends_at_most_once :
  forall (S : Type) (onSend : string -> S -> S) (isLoading : bool)
         (key : string) (shiftKey : bool) (input : string) (st : S),
    handleKeyDown onSend isLoading key shiftKey
                  (snd (handleKeyDown onSend isLoading key shiftKey input st))
                  (fst (handleKeyDown onSend isLoading key shiftKey input st))
    = handleKeyDown onSend isLoading key shiftKey input st
    /\ (key <> "Enter"%string \/ shiftKey = true ->
        handleKeyDown onSend isLoading key shiftKey input st = (st, input)).
Proof.
  intros S onSend isLoading key shiftKey input st. split.
  - unfold handleKeyDown.
    destruct (String.eqb key "Enter" && negb shiftKey).
    + apply handleSubmit_again.
    + reflexivity.
  - intros Hother. unfold handleKeyDown.
    destruct Hother as [Hkey | Hshift].
    + apply String.eqb_neq in Hkey. rewrite Hkey. reflexivity.
    + rewrite Hshift, andb_false_r. reflexivity.
Qed.

Lemma key_press_sends_at_most_once_witness :
  handleKeyDown (fun text (log : list string) => text :: log) false
                "Enter" true "hello" []
  = ([], "hello"%string).
Proof.
  apply (key_press_sends_at_most_once
           (list string) (fun text log => text :: log) false
           "Enter" true "hello" []).
  right. reflexivity.
Defined.

End InputControlsFacts.

(** ** What a message shows *)

Module MessageRenderFacts.
Import Types MessageView MessageRender.

Local Open Scope string_scope.

Lemma prefix_append (k post : string) : prefix k (k ++ post) = true.
Proof.
  induction k as [| a k IH]; simpl.
  - destruct post; reflexivity.
  - destruct (ascii_dec a a) as [_ | Hne]; [exact IH | contradiction].
Qed.

Lemma includes_of_prefix (k s : string) :
  prefix k s = true -> includes k s = true.
Proof.
  intros Hp. destruct s; cbn [includes]; rewrite Hp; reflexivity.
Qed.

Lemma includes_append (k pre post : string) :
  includes k (pre ++ k ++ post) = true.
Proof.
  induction pre as [| c pre IH].
  - cbn [append]. apply includes_of_prefix. apply prefix_append.
  - cbn [append includes]. rewrite IH. apply orb_true_r.
Qed.

(** X9.  The two phrases the system instruction tells the remote model to
    use for congestion, High Traffic and Heavy Congestion, are recognised by
    the traffic test of the message view: a model message that has one of
    them anywhere in its text, in any mix of upper and lower case, is
    classified as heavy traffic; a user message never is. *)
Theorem instructed_phrases_are_recognised :
  includes "High Traffic" Service.instructionRules = true
  /\ includes "Heavy Congestion" Service.instructionRules = true
  /\ (forall (message : ChatMessage) (pre post : string),
      role message = model ->
      toLowerCase (text message) = pre ++ toLowerCase "High Traffic" ++ post
      \/ toLowerCase (text message)
         = pre ++ toLowerCase "Heavy Congestion" ++ post ->
      hasHeavyTraffic message = true)
  /\ (forall message : ChatMessage,
      role message = user -> hasHeavyTraffic message = false).
Proof.
  split; [vm_compute; reflexivity |].
  split; [vm_compute; reflexivity |].
  split.
  - intros message pre post Hrole Htext. unfold hasHeavyTraffic, isUser.
    rewrite Hrole. cbn [negb andb]. unfold trafficKeywords. cbn [existsb].
    destruct Htext as [Ht | Ht]; rewrite Ht.
    + change (toLowerCase "High Traffic") with "high traffic".
      rewrite (includes_append "high traffic" pre post).
      repeat rewrite orb_true_r. reflexivity.
    + assert (Hre : pre ++ toLowerCase "Heavy Congestion" ++ post
                    = (pre ++ "heavy ") ++ "congestion" ++ post).
      { clear. induction pre as [| c pre IH]; cbn [append];
          [reflexivity | now rewrite IH]. }
      rewrite Hre.
      rewrite (includes_append "congestion" (pre ++ "heavy ") post).
      repeat rewrite orb_true_r. reflexivity.
  - intros message Hrole. unfold hasHeavyTraffic, isUser.
    rewrite Hrole. reflexivity.
Qed.

(** The Kelvin sign is lowered to [k]: GRIDLOC followed by U+212A. *)
Lemma kelvin_sign_is_lowered :
  hasHeavyTraffic
    (mkMsg "m" model
           (String "G" (String "R" (String "I" (String "D" (String "L"
              (String "O" (String "C" (String (ascii_of_nat 226)
                 (String (ascii_of_nat 132) (String (ascii_of_nat 170)
                    EmptyString))))))))))
           0 None None)
  = true.
Proof. reflexivity. Qed.

Lemma instructed_phrases_are_recognised_witness :
  hasHeavyTraffic
    (mkMsg "m" model "Expect HEAVY congestion near the bridge." 0 None None)
  = true.
Proof.
  destruct instructed_phrases_are_recognised as (_ & _ & Hrec & _).
  apply (Hrec _ "expect " " near the bridge."); [reflexivity |].
  right. reflexivity.
Defined.

End MessageRenderFacts.

(** ** The map block and its URL *)

Module EmbedFacts.
Import Types MessageView MessageRender.

Local Open Scope string_scope.

Lemma chars_append (a b : string) :
  list_ascii_of_string (a ++ b)
  = (list_ascii_of_string a ++ list_ascii_of_string b)%list.
Proof.
  induction a as [| c a IH]; simpl; [reflexivity | now rewrite IH].
Qed.

Lemma encodeChar_chars (c : ascii) :
  forallb (fun x => isUnreserved x || Ascii.eqb x "%")
          (list_ascii_of_string (encodeChar c)) = true.
Proof.
  destruct c as [[|] [|] [|] [|] [|] [|] [|] [|]]; vm_compute; reflexivity.
Qed.

Lemma encodeURIComponent_chars (s : string) :
  forallb (fun x => isUnreserved x || Ascii.eqb x "%")
          (list_ascii_of_string (encodeURIComponent s)) = true.
Proof.
  induction s as [| c s IH]; simpl.
  - reflexivity.
  - rewrite chars_append, forallb_app, encodeChar_chars, IH. reflexivity.
Qed.

Lemma encodeURIComponent_In (s : string) (x : ascii) :
  In x (list_ascii_of_string (encodeURIComponent s)) ->
  isUnreserved x = true \/ x = "%"%char.
Proof.
  intros Hin.
  pose proof (encodeURIComponent_chars s) as Hall.
  rewrite forallb_forall in Hall. specialize (Hall x Hin).
  apply orb_true_iff in Hall as [Hu | Hp]; [left; exact Hu |].
  right. apply Ascii.eqb_eq. exact Hp.
Qed.

Lemma decode_encodeChar (c : ascii) (rest : string) :
  decodeBytes (encodeChar c ++ rest) = String c (decodeBytes rest).
Proof.
  destruct c as [[|] [|] [|] [|] [|] [|] [|] [|]]; reflexivity.
Qed.

Lemma decode_encode (s : string) : decodeBytes (encodeURIComponent s) = s.
Proof.
  induction s as [| c s IH]; simpl.
  - reflexivity.
  - rewrite decode_encodeChar, IH. reflexivity.
Qed.

(** X10.  [encodeURIComponent] loses nothing: two strings with the same
    encoding are the same string, so two map titles that differ give two
    embed URLs that differ. *)
Theorem encoding_is_injective :
  forall s1 s2 : string,
    encodeURIComponent s1 = encodeURIComponent s2 -> s1 = s2.
Proof.
  intros s1 s2 Heq.
  rewrite <- (decode_encode s1), <- (decode_encode s2), Heq. reflexivity.
Qed.

Lemma encoding_is_injective_witness :
  encodeURIComponent "Gare & Co" = "Gare%20%26%20Co"
  /\ "Gare & Co" = decodeBytes "Gare%20%26%20Co".
Proof.
  split; [reflexivity |].
  apply (encoding_is_injective "Gare & Co" (decodeBytes "Gare%20%26%20Co")).
  reflexivity.
Defined.

Lemma primaryMapChunk_hasMapsUri (message : ChatMessage) (c : GroundingChunk) :
  primaryMapChunk message = Some c -> hasMapsUri c = true.
Proof.
  unfold primaryMapChunk, mapChunks.
  destruct (groundingChunks message) as [chunks |]; [| discriminate].
  destruct (filter hasMapsUri chunks) as [| c' rest] eqn:Hf; [discriminate |].
  intros Hc. injection Hc as Hc. subst c'.
  destruct (MessageViewFacts.head_of_filter _ _ _ _ Hf)
    as (_ & _ & _ & Hp & _).
  exact Hp.
Qed.

(** X11.  A message shows a map block exactly when it has a primary map
    chunk (the second test of [maps.uri] in the view never fails).  The block
    links to the [uri] of that chunk, which is not empty; its title is not
    empty ([Location] stands in for an empty title); and its embed URL is the
    fixed prefix, the encoded title and the fixed suffix, where the encoded
    title consists of unreserved characters and percent signs only, so that
    no character of a title can end the query value or add a parameter. *)
Theorem map_block_is_well_formed :
  (forall (message : ChatMessage) (c : GroundingChunk),
      primaryMapChunk message = Some c ->
      exists e, mapEmbed message = Some e)
  /\ (forall (message : ChatMessage) (e : MapEmbed),
      mapEmbed message = Some e ->
      (exists c s,
          primaryMapChunk message = Some c /\ maps c = Some s
          /\ href e = uri s /\ uri s <> EmptyString
          /\ (title s <> EmptyString -> embed_title e = title s)
          /\ (title s = EmptyString -> embed_title e = "Location"))
      /\ embed_title e <> EmptyString
      /\ embedUrl e
         = embedUrlPrefix ++ encodeURIComponent (embed_title e)
           ++ embedUrlSuffix
      /\ (forall x,
             In x (list_ascii_of_string (encodeURIComponent (embed_title e)))
             -> isUnreserved x = true \/ x = "%"%char)).
Proof.
  split.
  - intros message c Hc.
    pose proof (primaryMapChunk_hasMapsUri message c Hc) as Hu.
    unfold mapEmbed. rewrite Hc. unfold hasMapsUri in Hu.
    destruct (maps c) as [s |]; [| discriminate Hu].
    destruct (isEmpty (uri s)); [discriminate Hu |].
    eexists. reflexivity.
  - intros message e He. unfold mapEmbed in He.
    destruct (primaryMapChunk message) as [c |] eqn:Hc; [| discriminate He].
    destruct (maps c) as [s |] eqn:Hs; [| discriminate He].
    destruct (isEmpty (uri s)) eqn:Huri; [discriminate He |].
    injection He as He. subst e. cbn [href embed_title embedUrl].
    split; [| split; [| split]].
    + exists c, s. repeat split; try assumption.
      * intros Hempty. rewrite Hempty in Huri. discriminate Huri.
      * intros Hne. destruct (title s); [contradiction | reflexivity].
      * intros Hempty. rewrite Hempty. reflexivity.
    + destruct (title s); simpl; discriminate.
    + reflexivity.
    + intros x. apply encodeURIComponent_In.
Qed.

Lemma map_block_is_well_formed_witness :
  exists e, mapEmbed exampleMessage = Some e.
Proof.
  destruct map_block_is_well_formed as (Hshown & _).
  apply (Hshown exampleMessage mapM1). reflexivity.
Defined.

End EmbedFacts.

(** ** The settings panel and the header *)

Module SettingsFacts.
Import Types Service App AppUI Settings MessageRender MessageRenderFacts.

Local Open Scope string_scope.

Lemma string_append_assoc (a b c : string) : (a ++ b) ++ c = a ++ b ++ c.
Proof.
  induction a as [| x a IH]; simpl; [reflexivity | now rewrite IH].
Qed.

(** X12.  The two handlers of the settings panel compose as a user expects:
    toggling accessibility twice gives the preferences back, the last goal
    chosen wins, choosing the goal that is set changes nothing, the two
    handlers commute, and neither touches [useCurrentLocation]. *)
Theorem settings_handlers_compose :
  forall (p : UserPreferences) (g1 g2 : RoutePreference),
    toggleAccessibility (toggleAccessibility p) = p
    /\ handleGoalChange (handleGoalChange p g1) g2 = handleGoalChange p g2
    /\ handleGoalChange p (routePreference p) = p
    /\ toggleAccessibility (handleGoalChange p g1)
       = handleGoalChange (toggleAccessibility p) g1
    /\ useCurrentLocation (handleGoalChange p g1) = useCurrentLocation p
    /\ useCurrentLocation (toggleAccessibility p) = useCurrentLocation p.
Proof.
  intros [goal acc loc] g1 g2.
  unfold toggleAccessibility, handleGoalChange. simpl.
  rewrite negb_involutive. repeat split.
Qed.

(** X13.  The goal shown in the header has no underscore, whatever the
    preference: each of the four names has at most one, and the first one is
    what [replace] turns into a space. *)
Theorem header_goal_has_no_underscore :
  forall p : UserPreferences,
    includes "_" (goalLabel p) = false
    /\ String.length (goalLabel p)
       = String.length (routePreferenceToString (routePreference p)).
Proof.
  intros [[| | |] acc loc]; split; reflexivity.
Qed.

Lemma prefix_left (k s1 s2 : string) :
  prefix k s1 = true -> prefix k (s1 ++ s2) = true.
Proof.
  revert s1. induction k as [| a k IH]; intros s1 Hp.
  - destruct (s1 ++ s2); reflexivity.
  - destruct s1 as [| b s1]; [discriminate Hp |].
    simpl in *. destruct (ascii_dec a b); [apply IH; exact Hp | exact Hp].
Qed.

Lemma includes_right (k s1 s2 : string) :
  includes k s2 = true -> includes k (s1 ++ s2) = true.
Proof.
  intros Hk. induction s1 as [| c s1 IH]; [exact Hk |].
  cbn [append includes]. rewrite IH. apply orb_true_r.
Qed.

Lemma includes_left (k s1 s2 : string) :
  includes k s1 = true -> includes k (s1 ++ s2) = true.
Proof.
  induction s1 as [| c s1 IH]; cbn [append includes]; intros Hk.
  - rewrite orb_false_r in Hk.
    apply includes_of_prefix.
    destruct k; [destruct s2; reflexivity | discriminate Hk].
  - apply orb_true_iff in Hk as [Hp | Hi].
    + change (String c (s1 ++ s2)) with (String c s1 ++ s2).
      rewrite (prefix_left _ _ s2 Hp). reflexivity.
    + rewrite (IH Hi). apply orb_true_r.
Qed.

Section WithPlatform.
Context `{Platform}.

Lemma instruction_has_preferences (p : UserPreferences)
    (loc : option LatLng) (k : string) :
  includes k (preferencesText p) = true ->
  includes k (getSystemInstruction p loc) = true.
Proof.
  intros Hk. unfold getSystemInstruction.
  apply includes_right. apply includes_left. exact Hk.
Qed.

Lemma instruction_has_location (p : UserPreferences)
    (loc : option LatLng) (k : string) :
  includes k (locationContext loc) = true ->
  includes k (getSystemInstruction p loc) = true.
Proof.
  intros Hk. unfold getSystemInstruction.
  do 3 apply includes_right. apply includes_left. exact Hk.
Qed.

(** X14.  The system instruction follows the settings: it names the goal
    that is set; when accessibility is required it states the step-free
    requirement; with a user location it carries both coordinates as the
    platform prints them, and without one it says that the location is
    unknown. *)
Theorem instruction_follows_settings :
  forall (p : UserPreferences) (loc : option LatLng),
    includes (routePreferenceToString (routePreference p))
             (getSystemInstruction p loc) = true
    /\ (accessibilityRequired p = true ->
        includes "Must be wheelchair accessible/step-free."
                 (getSystemInstruction p loc) = true)
    /\ (forall l, loc = Some l ->
        includes (numberToString (lat l)) (getSystemInstruction p loc) = true
        /\ includes (numberToString (lng l)) (getSystemInstruction p loc)
           = true)
    /\ (loc = None ->
        includes "USER LOCATION: Unknown." (getSystemInstruction p loc)
        = true).
Proof.
  intros p loc. split; [| split; [| split]].
  - apply instruction_has_preferences. unfold preferencesText.
    do 2 apply includes_right. apply includes_of_prefix, prefix_append.
  - intros Hacc. apply instruction_has_preferences.
    unfold preferencesText. rewrite Hacc.
    do 5 apply includes_right. apply includes_of_prefix, prefix_append.
  - intros l Hl. subst loc. split; apply instruction_has_location;
      unfold locationContext.
    + apply includes_right. apply includes_of_prefix, prefix_append.
    + do 3 apply includes_right. apply includes_of_prefix, prefix_append.
  - intros Hnone. subst loc. apply instruction_has_location.
    unfold locationContext. apply includes_of_prefix.
    vm_compute. reflexivity.
Qed.

Lemma reachableUI_reachable (t0 : Z) (st : AppState) :
  reachableUI t0 st -> reachable t0 st.
Proof.
  induction 1 as [| st e _ IH _]; [apply reach_init | apply reach_step, IH].
Qed.

Lemma step_useCurrentLocation (st : AppState) (e : Event) :
  fromPanel st e ->
  useCurrentLocation (preferences (step st e))
  = useCurrentLocation (preferences st).
Proof.
  intros Hpanel.
  destruct e as [input uid now | k r uid now | la lo now | la lo now | p];
    simpl.
  - unfold submit, InputArea.handleSubmit.
    destruct (isEmpty (InputArea.trim input) || isLoading st); reflexivity.
  - destruct (nth_error (inFlight st) k); [| reflexivity].
    destruct (sendMessageToGemini_settle r); reflexivity.
  - unfold success.
    destruct (shouldUpdate (lastLocationRef st) la lo now); reflexivity.
  - reflexivity.
  - simpl in Hpanel. destruct Hpanel as [[goal Hp] | Hp]; subst p; reflexivity.
Qed.

(** X15.  The settings panel has no control for [useCurrentLocation]: in
    every state a session reaches when the preferences change through the
    panel only, [useCurrentLocation] still has its initial value [true]. *)
Theorem location_use_stays_on :
  forall (t0 : Z) (st : AppState),
    reachableUI t0 st -> useCurrentLocation (preferences st) = true.
Proof.
  intros t0 st Hreach.
  induction Hreach as [| st e _ IH Hpanel]; [reflexivity |].
  rewrite (step_useCurrentLocation st e Hpanel). exact IH.
Qed.

End WithPlatform.

Lemma instruction_follows_settings_witness :
  includes "Must be wheelchair accessible/step-free."
           (@getSystemInstruction examplePlatform
              (toggleAccessibility defaultPreferences) None) = true.
Proof.
  destruct (@instruction_follows_settings examplePlatform
              (toggleAccessibility defaultPreferences) None)
    as (_ & Hacc & _).
  apply Hacc. reflexivity.
Defined.

Lemma location_use_stays_on_witness :
  useCurrentLocation
    (preferences
       (@step examplePlatform (initialState 0)
              (EvPreferences (handleGoalChange defaultPreferences LOW_WALKING))))
  = true.
Proof.
  apply (@location_use_stays_on examplePlatform 0).
  apply ui_step; [apply ui_init |].
  left. exists LOW_WALKING. reflexivity.
Defined.

End SettingsFacts.

(** ** Invariants of a session *)

Module SessionInvariants.
Import Types Service App AppUI MessageView MessageRender.

Local Open Scope list_scope.

Lemma alternates_app (first : Role) (l : list ChatMessage) (m : ChatMessage) :
  alternates first (l ++ [m])
  = alternates first l
    && roleEqb (role m)
               (if Nat.even (List.length l) then first else otherRole first).
Proof.
  revert first. induction l as [| x l IH]; intros first.
  - simpl. rewrite andb_true_r. reflexivity.
  - cbn [app alternates List.length]. rewrite IH, <- andb_assoc.
    rewrite Nat.even_succ, <- Nat.negb_even.
    destruct (Nat.even (List.length l)); destruct first; reflexivity.
Qed.

Lemma odd_app_one {A : Type} (l : list A) (x : A) :
  Nat.odd (List.length (l ++ [x])) = negb (Nat.odd (List.length l)).
Proof.
  rewrite length_app. simpl. rewrite Nat.add_1_r, Nat.odd_succ.
  rewrite <- Nat.negb_odd. reflexivity.
Qed.

Lemma wellFormed_welcome (t0 : Z) : wellFormed (welcome t0).
Proof. repeat split; discriminate. Qed.

Lemma wellFormed_userMsg (uid input : string) (now : Z) :
  wellFormed (userMsg uid input now).
Proof. repeat split; discriminate. Qed.

Lemma wellFormed_botMsg (uid : string) (response : Response) (now : Z) :
  wellFormed (botMsg uid response now).
Proof. repeat split; discriminate. Qed.

Lemma wellFormed_errorMsg (uid : string) (now : Z) :
  wellFormed (errorMsg uid now).
Proof. repeat split; discriminate. Qed.

Section WithPlatform.
Context `{Platform}.

Lemma sessionInvariant_step (st : AppState) (e : Event) :
  sessionInvariant st -> sessionInvariant (step st e).
Proof.
  intros Hinv.
  destruct e as [input uid now | k r uid now | la lo now | la lo now | p];
    simpl.
  - unfold submit, InputArea.handleSubmit.
    destruct (isEmpty (InputArea.trim input)); simpl; [exact Hinv |].
    destruct (isLoading st) eqn:Hl; simpl; [exact Hinv |].
    destruct Hinv as [(_ & Hnil & Halt & Hodd) | (Habs & _)]; [| congruence].
    right. split; [reflexivity |].
    exists (messages st), uid, input, now, (preferences st), (userLocation st).
    simpl. rewrite Hnil. repeat split; assumption.
  - destruct (nth_error (inFlight st) k) as [req |] eqn:Hk; [| exact Hinv].
    destruct Hinv as [(_ & Hnil & _) | (_ & Hpending)].
    + rewrite Hnil in Hk. destruct k; discriminate Hk.
    + destruct Hpending
        as (prior & uid0 & input0 & now0 & prefs & loc
            & Hm & Hcalls & Halt & Hodd).
      rewrite Hcalls in Hk.
      destruct k as [| k]; [| destruct k; discriminate Hk].
      assert (Heven : Nat.even (List.length prior) = false).
      { rewrite <- Nat.negb_odd, Hodd. reflexivity. }
      left. destruct (sendMessageToGemini_settle r) as [response | err];
        simpl; rewrite Hm, Hcalls; simpl;
        (split; [reflexivity |]); (split; [reflexivity |]);
        rewrite !alternates_app, !odd_app_one, Halt, Hodd, length_app;
        simpl; rewrite Nat.add_1_r, Nat.even_succ, Hodd, Heven;
        split; reflexivity.
  - unfold success.
    destruct (shouldUpdate (lastLocationRef st) la lo now); exact Hinv.
  - exact Hinv.
  - exact Hinv.
Qed.

Lemma sessionInvariant_reachable (t0 : Z) (st : AppState) :
  reachable t0 st -> sessionInvariant st.
Proof.
  induction 1 as [| st e Hreach IH].
  - left. repeat split.
  - apply sessionInvariant_step. exact IH.
Qed.

(** X16.  In every state of a session the roles of the conversation
    alternate, beginning with the model's welcome; the number of messages is
    odd at rest and even while loading, so the last message is the model's
    at rest and the user's while a call is pending. *)
Theorem conversation_alternates :
  forall (t0 : Z) (st : AppState),
    reachable t0 st ->
    alternates model (messages st) = true
    /\ Nat.odd (List.length (messages st)) = negb (isLoading st)
    /\ role (last (messages st) (welcome t0))
       = (if isLoading st then user else model).
Proof.
  intros t0 st Hreach.
  destruct (sessionInvariant_reachable t0 st Hreach)
    as [(Hl & _ & Halt & Hodd) | (Hl & Hpending)].
  - rewrite Hl. split; [exact Halt |]. split; [exact Hodd |].
    destruct (messages st) as [| m0 rest] eqn:Hm; [discriminate Hodd |].
    assert (Hne : m0 :: rest <> []) by discriminate.
    destruct (exists_last Hne) as (front & m & Hsplit).
    rewrite Hsplit in *. rewrite last_last.
    rewrite alternates_app in Halt. apply andb_true_iff in Halt as [_ Hrole].
    rewrite odd_app_one in Hodd. apply negb_true_iff in Hodd.
    rewrite <- Nat.negb_odd, Hodd in Hrole. simpl in Hrole.
    destruct (role m); [discriminate Hrole | reflexivity].
  - destruct Hpending
      as (prior & uid0 & input0 & now0 & prefs & loc
          & Hm & _ & Halt & Hodd).
    rewrite Hl, Hm.
    assert (Heven : Nat.even (List.length prior) = false).
    { rewrite <- Nat.negb_odd, Hodd. reflexivity. }
    rewrite alternates_app, odd_app_one, Halt, Hodd, Heven, last_last.
    repeat split.
Qed.

(** X17.  While a call is pending, the conversation ends with the user
    message of that call (role user, no error flag, no grounding chunks) and
    the one request in flight was built from the messages before it: its
    live message is the text of that last message and its history is the
    role and text of the earlier messages that are not error messages. *)
Theorem pending_request_matches_last_message :
  forall (t0 : Z) (st : AppState),
    reachable t0 st ->
    isLoading st = true ->
    exists prior uid input now r,
      messages st = prior ++ [mkMsg uid user input now None None]
      /\ inFlight st = [r]
      /\ message r = text (last (messages st) (welcome t0))
      /\ message r = input
      /\ history r
         = map (fun m => mkContent (role m) (text m))
               (filter (fun m => negb (truthy (isError m))) prior).
Proof.
  intros t0 st Hreach Hl.
  destruct (sessionInvariant_reachable t0 st Hreach)
    as [(Hrest & _) | (_ & Hpending)]; [congruence |].
  destruct Hpending
    as (prior & uid0 & input0 & now0 & prefs & loc & Hm & Hcalls & _).
  exists prior, uid0, input0, now0,
         (sendMessageToGemini_request prior input0 prefs loc).
  split; [exact Hm |]. split; [exact Hcalls |].
  split; [rewrite Hm, last_last; reflexivity |].
  split; reflexivity.
Qed.

(** While a call is pending, an event that is not the settling of a call
    leaves the conversation and the loading flag as they are. *)
Lemma loading_waits (st : AppState) (e : Event) :
  isLoading st = true ->
  (forall k r uid now, e <> EvSettle k r uid now) ->
  messages (step st e) = messages st /\ isLoading (step st e) = true.
Proof.
  intros Hl Hother.
  destruct e as [input uid now | k r uid now | la lo now | la lo now | p];
    simpl.
  - unfold submit. rewrite Hl.
    rewrite InputFacts.handleSubmit_loading. split; [reflexivity | exact Hl].
  - exfalso. exact (Hother k r uid now eq_refl).
  - unfold success.
    destruct (shouldUpdate (lastLocationRef st) la lo now);
      split; (reflexivity || exact Hl).
  - split; [reflexivity | exact Hl].
  - split; [reflexivity | exact Hl].
Qed.

(** X18.  A loading session ends by the settling of its call and by nothing
    else: in every loading state of a session, the settling of the pending
    call, whatever its outcome, appends one message and turns the loading
    flag off; any other event leaves the conversation and the flag as they
    are. *)
Theorem loading_ends_by_settling_only :
  forall (t0 : Z) (st : AppState),
    reachable t0 st ->
    isLoading st = true ->
    (forall r uid now,
        isLoading (step st (EvSettle 0 r uid now)) = false
        /\ inFlight (step st (EvSettle 0 r uid now)) = []
        /\ exists m, messages (step st (EvSettle 0 r uid now))
                     = messages st ++ [m])
    /\ (forall e,
        (forall k r uid now, e <> EvSettle k r uid now) ->
        messages (step st e) = messages st /\ isLoading (step st e) = true).
Proof.
  intros t0 st Hreach Hl. split.
  - intros r uid now.
    destruct (sessionInvariant_reachable t0 st Hreach)
      as [(Hrest & _) | (_ & Hpending)]; [congruence |].
    destruct Hpending
      as (prior & uid0 & input0 & now0 & prefs & loc & Hm & Hcalls & _).
    cbn [step]. rewrite Hcalls. cbn [nth_error].
    destruct (sendMessageToGemini_settle r) as [response | err]; simpl;
      rewrite Hcalls; simpl; repeat split; eexists; reflexivity.
  - intros e Hother. exact (loading_waits st e Hl Hother).
Qed.

Lemma step_appends_wellFormed (st : AppState) (e : Event) :
  exists suffix,
    messages (step st e) = messages st ++ suffix /\ Forall wellFormed suffix.
Proof.
  destruct e as [input uid now | k r uid now | la lo now | la lo now | p];
    simpl.
  - unfold submit, InputArea.handleSubmit.
    destruct (isEmpty (InputArea.trim input) || isLoading st); simpl.
    + exists []. rewrite app_nil_r. split; [reflexivity | constructor].
    + exists [userMsg uid input now]. split; [reflexivity |].
      constructor; [apply wellFormed_userMsg | constructor].
  - destruct (nth_error (inFlight st) k) as [req |].
    + destruct (sendMessageToGemini_settle r) as [response | err]; simpl.
      * exists [botMsg uid response now]. split; [reflexivity |].
        constructor; [apply wellFormed_botMsg | constructor].
      * exists [errorMsg uid now]. split; [reflexivity |].
        constructor; [apply wellFormed_errorMsg | constructor].
    + exists []. rewrite app_nil_r. split; [reflexivity | constructor].
  - unfold success.
    destruct (shouldUpdate (lastLocationRef st) la lo now);
      exists []; rewrite app_nil_r; (split; [reflexivity | constructor]).
  - exists []. rewrite app_nil_r. split; [reflexivity | constructor].
  - exists []. rewrite app_nil_r. split; [reflexivity | constructor].
Qed.

Lemma wellFormed_reachable (t0 : Z) (st : AppState) :
  reachable t0 st -> Forall wellFormed (messages st).
Proof.
  induction 1 as [| st e Hreach IH].
  - constructor; [apply wellFormed_welcome | constructor].
  - destruct (step_appends_wellFormed st e) as (suffix & Hs & Hwf).
    rewrite Hs. apply Forall_app. split; assumption.
Qed.

Lemma no_chunks_no_map (m : ChatMessage) :
  groundingChunks m = None ->
  mapEmbed m = None /\ showsTrafficBadge m = false.
Proof.
  intros Hnone.
  assert (He : mapEmbed m = None).
  { unfold mapEmbed, primaryMapChunk, mapChunks. rewrite Hnone. reflexivity. }
  split; [exact He |]. unfold showsTrafficBadge. rewrite He. reflexivity.
Qed.

(** X19.  In every state of a session, a user message and an error message
    carry no grounding chunks, so the view shows neither a map nor the
    traffic badge for them; an error message has the role of the model and
    the fixed apology as its text; and the traffic badge is only ever shown
    together with a map. *)
Theorem user_and_error_messages_show_no_map :
  forall (t0 : Z) (st : AppState) (m : ChatMessage),
    reachable t0 st ->
    In m (messages st) ->
    (role m = user \/ isError m = Some true ->
     groundingChunks m = None /\ mapEmbed m = None
     /\ showsTrafficBadge m = false)
    /\ (isError m = Some true -> role m = model /\ text m = errorText)
    /\ (showsTrafficBadge m = true -> mapEmbed m <> None /\ role m = model).
Proof.
  intros t0 st m Hreach Hin.
  pose proof (wellFormed_reachable t0 st Hreach) as Hall.
  rewrite Forall_forall in Hall.
  destruct (Hall m Hin) as (Huser & Herr & _).
  split; [| split].
  - intros [Hu | He].
    + destruct (Huser Hu) as [_ Hnone].
      split; [exact Hnone | apply no_chunks_no_map; exact Hnone].
    + destruct (Herr He) as (_ & _ & Hnone).
      split; [exact Hnone | apply no_chunks_no_map; exact Hnone].
  - intros He. destruct (Herr He) as (Hr & Ht & _). split; assumption.
  - unfold showsTrafficBadge, hasHeavyTraffic, isUser. intros Hbadge.
    destruct (mapEmbed m); [| discriminate Hbadge].
    split; [discriminate |].
    destruct (role m); [discriminate Hbadge | reflexivity].
Qed.

(** X20.  From one run of [handleSendMessage] to the next request the history
    grows by the turns of that run without the error: the user turn, and
    the answer when the call succeeded.  After a failed call the next
    request carries the failed question and not the apology. *)
Theorem history_grows_by_the_turns_of_a_run :
  forall (api : ChatRequest -> ApiResult) (input uid1 : string) (now1 : Z)
         (uid2 : string) (now2 : Z) (st : AppState) (next : string),
    history (outboundRequest
               (handleSendMessage api input uid1 now1 uid2 now2 st) next)
    = history (outboundRequest st input)
      ++ mkContent user input
         :: match api (outboundRequest st input) with
            | ApiOk answer _ => [mkContent model answer]
            | ApiThrow => []
            end.
Proof.
  intros api input uid1 now1 uid2 now2 st next.
  unfold outboundRequest at 1. unfold sendMessageToGemini_request at 1.
  cbv zeta. cbn [history].
  rewrite SessionFacts.handleSendMessage_messages.
  rewrite SessionFacts.validHistory_app, map_app.
  destruct (api (outboundRequest st input)) as [answer chunks |];
    reflexivity.
Qed.

(** X21.  A request does not depend on [useCurrentLocation]: two preference
    values that agree on the goal and on accessibility give the same
    request, and a user location that is held is sent, in the tool
    configuration and in the instruction, even when [useCurrentLocation] is
    off. *)
Theorem request_ignores_location_switch :
  forall (msgs : list ChatMessage) (newMessage : string)
         (p1 p2 : UserPreferences) (loc : option LatLng),
    routePreference p1 = routePreference p2 ->
    accessibilityRequired p1 = accessibilityRequired p2 ->
    sendMessageToGemini_request msgs newMessage p1 loc
    = sendMessageToGemini_request msgs newMessage p2 loc
    /\ toolConfig (sendMessageToGemini_request msgs newMessage p1 loc) = loc.
Proof.
  intros msgs newMessage p1 p2 loc Hr Ha.
  unfold sendMessageToGemini_request. cbv zeta.
  rewrite (SessionFacts.getSystemInstruction_reads p1 p2 loc Hr Ha).
  split; reflexivity.
Qed.

End WithPlatform.

Lemma conversation_alternates_witness :
  alternates model
    (messages (@step examplePlatform (initialState 0) (EvSubmit "a" "u1" 1)))
  = true.
Proof.
  destruct (@conversation_alternates examplePlatform 0
              (@step examplePlatform (initialState 0) (EvSubmit "a" "u1" 1)))
    as (Halt & _).
  - apply reach_step. apply reach_init.
  - exact Halt.
Defined.

Lemma pending_request_matches_last_message_witness :
  exists r,
    inFlight (@step examplePlatform (initialState 0) (EvSubmit "a" "u1" 1))
    = [r]
    /\ message r = "a"%string.
Proof.
  destruct (@pending_request_matches_last_message examplePlatform 0
              (@step examplePlatform (initialState 0) (EvSubmit "a" "u1" 1)))
    as (prior & uid & input & now & r & _ & Hcalls & Hlast & _).
  - apply reach_step. apply reach_init.
  - reflexivity.
  - exists r. split; [exact Hcalls | exact Hlast].
Defined.

Lemma loading_ends_by_settling_only_witness :
  isLoading
    (@step examplePlatform
       (@step examplePlatform (initialState 0) (EvSubmit "a" "u1" 1))
       (EvSettle 0 ApiThrow "u2" 2))
  = false.
Proof.
  destruct (@loading_ends_by_settling_only examplePlatform 0
              (@step examplePlatform (initialState 0) (EvSubmit "a" "u1" 1)))
    as (Hsettle & _).
  - apply reach_step. apply reach_init.
  - reflexivity.
  - destruct (Hsettle ApiThrow "u2"%string 2%Z) as (Hl & _). exact Hl.
Defined.

Lemma user_and_error_messages_show_no_map_witness :
  mapEmbed (errorMsg "u2" 2) = None.
Proof.
  destruct (@user_and_error_messages_show_no_map examplePlatform 0
              (@step examplePlatform
                 (@step examplePlatform (initialState 0)
                        (EvSubmit "a" "u1" 1))
                 (EvSettle 0 ApiThrow "u2" 2))
              (errorMsg "u2" 2))
    as (Hnone & _).
  - apply reach_step. apply reach_step. apply reach_init.
  - simpl. right. right. left. reflexivity.
  - destruct Hnone as (_ & Hmap & _); [right; reflexivity | exact Hmap].
Defined.

Lemma request_ignores_location_switch_witness :
  toolConfig
    (@sendMessageToGemini_request examplePlatform [welcome 0] "a"
       (mkPrefs FASTEST false false) (Some (mkLatLng 48 2)))
  = Some (mkLatLng 48 2).
Proof.
  destruct (@request_ignores_location_switch examplePlatform [welcome 0]
              "a"%string (mkPrefs FASTEST false false)
              (mkPrefs FASTEST false true) (Some (mkLatLng 48 2))
              eq_refl eq_refl)
    as (_ & Hloc).
  exact Hloc.
Defined.

End SessionInvariants.
